(** * City simulator: partitioning, district lookup and the gateway worker

    A shallow embedding of [prototype/city-simulator/city_simulator.py] and
    [prototype/city-simulator/edge_manager.py].

    Python integers are unbounded and are modelled by [Z]; [//] and [%] are
    floor division and its remainder, which is what [Z.div] and [Z.modulo]
    compute for a non-zero divisor.  Floats (coordinates, time-outs) are
    idealised as rationals.  A raised exception is a value of [result];
    everything outside the two files (random numbers, the clock, the sensor
    simulators, the Kafka producer, the stop event) acts on an abstract
    [World] through the interface [External]. *)

From Stdlib Require Import ZArith QArith List String Ascii Bool Lia Lqa DecimalString.
Import ListNotations.
Open Scope string_scope.
Open Scope list_scope.
Open Scope Z_scope.

(** ** Exceptions *)

Inductive exn : Type :=
| ZeroDivisionError
| KeyError (key : string)
| OtherException.

Inductive result (A : Type) : Type :=
| Ok (a : A)
| Raise (e : exn).
Arguments Ok {A} a.
Arguments Raise {A} e.

Definition is_ok {A : Type} (r : result A) : bool :=
  match r with Ok _ => true | Raise _ => false end.

(** ** [calculate_instance_edge_range] *)

Module Partition.

(** [//] and [%] raise [ZeroDivisionError] on a zero divisor; nothing else
    in the function can fail, and nothing checks [instance_id]. *)
Definition calculate_instance_edge_range
    (total_edges instance_id total_instances : Z) : result (Z * Z) :=
  if total_instances =? 0 then Raise ZeroDivisionError
  else
    let edges_per_instance := total_edges / total_instances in
    let remainder := total_edges mod total_instances in
    if instance_id <? remainder then
      let start := instance_id * (edges_per_instance + 1) in
      let end_ := start + edges_per_instance in
      Ok (start, end_)
    else
      let start := instance_id * edges_per_instance + remainder in
      let end_ := start + edges_per_instance - 1 in
      Ok (start, end_).

(** The number of indices of an inclusive range; [end < start] is the empty
    range. *)
Definition range_size (r : Z * Z) : Z := Z.max 0 (snd r - fst r + 1).

Definition in_range (x : Z) (r : Z * Z) : Prop := fst r <= x <= snd r.

(** What [range(edge_start, edge_end + 1)] enumerates. *)
Definition range_indices (r : Z * Z) : list Z :=
  map (fun k => fst r + Z.of_nat k) (seq 0 (Z.to_nat (snd r - fst r + 1))).

(** The ranges of instances [0 .. n-1], in order. *)
Definition all_ranges (total_edges total_instances : Z) : list (result (Z * Z)) :=
  map (fun k => calculate_instance_edge_range total_edges (Z.of_nat k) total_instances)
      (seq 0 (Z.to_nat total_instances)).

Definition ok_ranges (l : list (result (Z * Z))) : list (Z * Z) :=
  flat_map (fun r => match r with Ok p => [p] | Raise _ => [] end) l.

End Partition.


(** ** Python dictionaries with string keys, in insertion order *)

Definition dict (V : Type) : Type := list (string * V).

Fixpoint dict_get {V : Type} (d : dict V) (k : string) : option V :=
  match d with
  | [] => None
  | (k', v) :: d' => if String.eqb k k' then Some v else dict_get d' k
  end.

(** [d.get(k, default)] *)
Definition dict_get_default {V : Type} (d : dict V) (k : string) (default : V) : V :=
  match dict_get d k with Some v => v | None => default end.

(** [d[k] = v] *)
Fixpoint dict_set {V : Type} (d : dict V) (k : string) (v : V) : dict V :=
  match d with
  | [] => [(k, v)]
  | (k', v') :: d' =>
      if String.eqb k k' then (k', v) :: d' else (k', v') :: dict_set d' k v
  end.

(** ** State and exceptions *)

Definition M (S A : Type) : Type := S -> result A * S.

Definition ret {S A : Type} (a : A) : M S A := fun s => (Ok a, s).

Definition bind {S A B : Type} (m : M S A) (k : A -> M S B) : M S B :=
  fun s => match m s with
           | (Ok a, s') => k a s'
           | (Raise e, s') => (Raise e, s')
           end.

Definition raise {S A : Type} (e : exn) : M S A := fun s => (Raise e, s).

(** [try: body  except Exception as e: handler e] *)
Definition try_except {S A : Type} (body : M S A) (handler : exn -> M S A) : M S A :=
  fun s => match body s with
           | (Ok a, s') => (Ok a, s')
           | (Raise e, s') => handler e s'
           end.

Definition gets {S A : Type} (f : S -> A) : M S A := fun s => (Ok (f s), s).

Definition modify {S : Type} (f : S -> S) : M S unit := fun s => (Ok tt, f s).

Notation "x <- m ;; k" := (bind m (fun x => k))
  (at level 61, m at next level, right associativity).
Notation "m ;; k" := (bind m (fun _ => k))
  (at level 61, right associativity).

(** ** Data *)

(** [{'latitude': ..., 'longitude': ...}] *)
Record location : Type := { latitude : Q; longitude : Q }.

(** One entry of a gateway's sensor list, as [generate_sensor_configs]
    builds it. *)
Record sensor_cfg : Type := {
  sensor_id : string;
  sensor_location : string;
  offset_lat : Q;
  offset_lon : Q
}.

(** [edge_config['sensors']]: sensor type -> list of sensors. *)
Definition sensors_dict : Type := dict (list sensor_cfg).

(** A district of [city_config.json].  Every key may be absent; [d_other]
    counts the keys the simulator never reads (the name, for one), which
    only matter for the truth value of the dict. *)
Record edge_range_cfg : Type := { er_start : option Z; er_end : option Z }.

Record center_cfg : Type := { c_latitude : option Q; c_longitude : option Q }.

Record district : Type := {
  d_district_id : option string;
  d_edge_range : option edge_range_cfg;
  d_center : option center_cfg;
  d_other : nat
}.

(** The dict handed to [EdgeManager.__init__]. *)
Record edge_config : Type := {
  ec_gateway_id : option string;
  ec_edge_id : option string;
  ec_name : option string;
  ec_location : option location;
  ec_sensors : option sensors_dict
}.

Inductive sensor_kind : Type := Speed | Weather | Camera.

Definition GATEWAY_VERSION : string := "1.0.0".
Definition GATEWAY_FIRMWARE : string := "EdgeOS 2.1.3".

Record sensor_counts : Type := {
  count_speed : nat; count_weather : nat; count_camera : nat
}.

Record metadata : Type := {
  md_name : string;
  md_version : string;
  md_firmware : string;
  md_sensor_counts : sensor_counts
}.

Section Payload.
Variable reading : Type.

(** The gateway payload of [generate_gateway_payload]. *)
Record payload : Type := {
  p_gateway_id : string;
  p_district_id : string;
  p_location : location;
  p_last_updated : string;
  p_metadata : metadata;
  p_sensors : list reading
}.

(** What a simulator's [generate_data] returns: [None], or a dict of which
    only the ['readings'] entry is read (it may be missing). *)
Inductive sensor_data : Type :=
| NoData
| Data (readings : option (list reading)).

(** The truth value of the returned object.  A dict without ['readings']
    may be empty or not; both cases add no reading to the payload, and the
    model takes it as a true value. *)
Definition sensor_data_truthy (d : sensor_data) : bool :=
  match d with NoData => false | Data _ => true end.

(** [sensor_data.get('readings', [])] *)
Definition get_readings (d : sensor_data) : list reading :=
  match d with Data (Some rs) => rs | _ => [] end.

End Payload.
Arguments p_gateway_id {reading} _.
Arguments p_district_id {reading} _.
Arguments p_location {reading} _.
Arguments p_last_updated {reading} _.
Arguments p_metadata {reading} _.
Arguments p_sensors {reading} _.
Arguments NoData {reading}.
Arguments Data {reading} _.
Arguments sensor_data_truthy {reading} _.
Arguments get_readings {reading} _.

(** ** [collections.deque] with a [maxlen] *)

Record deque (A : Type) : Type := { items : list A; maxlen : nat }.
Arguments items {A} _.
Arguments maxlen {A} _.

Definition deque_new {A : Type} (n : nat) : deque A :=
  {| items := []; maxlen := n |}.

(** [append] adds on the right; a deque longer than [maxlen] then drops
    its leftmost item. *)
Definition deque_append {A : Type} (d : deque A) (x : A) : deque A :=
  let l := items d ++ [x] in
  {| items := if (maxlen d <? List.length l)%nat then tl l else l;
     maxlen := maxlen d |}.

Definition deque_clear {A : Type} (d : deque A) : deque A :=
  {| items := []; maxlen := maxlen d |}.

Definition deque_len {A : Type} (d : deque A) : nat := List.length (items d).

(** ** Observable events and the outside world *)

Inductive level : Type := INFO | ERROR.

(** One constructor per logging statement of the two files. *)
Inductive log_message : Type :=
| MsgGatewayInitialized (speed weather camera : nat)
| MsgStartingLoop
| MsgIteration (iteration : Z)
| MsgPayloadGenerated (sensors : nat)
| MsgNoSensors
| MsgSending (topic : string)
| MsgSent (sensors : nat) (topic : string)
| MsgKafkaError
| MsgRetrying (buffered : nat)
| MsgLoopError
| MsgLoopStopped
| MsgInitializedEdges (managers : nat).

Section Events.
Variable reading : Type.

Inductive event : Type :=
| Log (lv : level) (m : log_message)
| RandomUniform (a b value : Q)
| ProducerSend (topic key : string) (value : payload reading) (delivered : bool)
| EventWait (timeout : Q).

End Events.
Arguments Log {reading} lv m.
Arguments RandomUniform {reading} a b value.
Arguments ProducerSend {reading} topic key value delivered.
Arguments EventWait {reading} timeout.

(** The collaborators that live outside the two files.  Each call may read
    and change the [World]; other threads (the supervisor that sets the stop
    event) act on it too, and their effect shows in the [World] a call
    returns. *)
Class External : Type := {
  World : Type;
  reading : Type;
  (** module globals read from the environment *)
  INSTANCE_ID : Z;
  TOTAL_INSTANCES : Z;
  KAFKA_TOPICS : dict string;
  (** [random.random()], the source of [random.uniform] *)
  random_random : World -> Q * World;
  (** [datetime.utcnow().isoformat()] *)
  utcnow_isoformat : World -> string;
  (** [SpeedSensorSimulator(location)] and its two siblings *)
  simulator_new : sensor_kind -> location -> World -> World;
  (** [simulator.generate_data(sensors, gateway_id, edge_id)] *)
  generate_data :
    sensor_kind -> list sensor_cfg -> string -> string ->
    World -> result (sensor_data reading) * World;
  (** [producer.send(topic, key=..., value=...)] followed by
      [future.get(timeout=10)]; any failure is a raised exception *)
  producer_send :
    string -> string -> payload reading -> World -> result unit * World;
  (** [stop_event.is_set()] *)
  stop_is_set : World -> bool;
  (** [stop_event.wait(timeout=...)] *)
  stop_wait : Q -> World -> bool * World
}.

Section Model.
Context {E : External}.

(** The process: the world and what was observed so far, oldest first. *)
Record Proc : Type := { world : World; trace : list (event reading) }.

Definition emit (e : event reading) : M Proc unit :=
  modify (fun p => {| world := world p; trace := trace p ++ [e] |}).

Definition logger (lv : level) (m : log_message) : M Proc unit :=
  emit (Log lv m).

Definition call {A : Type} (f : World -> A * World) : M Proc A :=
  fun p => let (a, w) := f (world p) in
           (Ok a, {| world := w; trace := trace p |}).

Definition call_raising {A : Type} (f : World -> result A * World) : M Proc A :=
  fun p => let (r, w) := f (world p) in
           (r, {| world := w; trace := trace p |}).

(** [random.uniform(a, b)] is [a + (b - a) * random()]. *)
Definition random_uniform (a b : Q) : M Proc Q :=
  r <- call random_random ;;
  let value := (a + (b - a) * r)%Q in
  emit (RandomUniform a b value) ;;
  ret value.

(** ** The gateway object *)

Record EdgeManager : Type := {
  district_id : string;
  gateway_id : string;
  gateway_name : string;
  gateway_location : location;
  sensors_config : sensors_dict;
  _sensors_edge_id : string;
  kafka_topics : dict string;
  local_buffer : deque (payload reading);
  sampling_interval : Q
}.

Definition set_local_buffer (g : EdgeManager) (b : deque (payload reading)) : EdgeManager :=
  {| district_id := district_id g;
     gateway_id := gateway_id g;
     gateway_name := gateway_name g;
     gateway_location := gateway_location g;
     sensors_config := sensors_config g;
     _sensors_edge_id := _sensors_edge_id g;
     kafka_topics := kafka_topics g;
     local_buffer := b;
     sampling_interval := sampling_interval g |}.

(** A method runs on the process and on [self]. *)
Record St : Type := { proc : Proc; self : EdgeManager }.

Definition lift {A : Type} (m : M Proc A) : M St A :=
  fun s => let (r, p) := m (proc s) in (r, {| proc := p; self := self s |}).

Definition get_self : M St EdgeManager := gets self.

Definition update_buffer (f : deque (payload reading) -> deque (payload reading)) : M St unit :=
  modify (fun s => {| proc := proc s;
                      self := set_local_buffer (self s) (f (local_buffer (self s))) |}).

End Model.

(** ** [edge_manager.py]: class [EdgeManager] *)

Section EdgeManagerMethods.
Context {E : External}.

Definition require {S A : Type} (key : string) (o : option A) : M S A :=
  match o with Some a => ret a | None => raise (KeyError key) end.

(** [EdgeManager.__init__].  The default of [edge_config.get('gateway_id',
    edge_config['edge_id'])] is evaluated before the call, so a missing
    ['edge_id'] raises whether or not ['gateway_id'] is there. *)
Definition EdgeManager_init (district_id_ : string) (cfg : edge_config)
    (kafka_topics_ : dict string) : M Proc EdgeManager :=
  edge_id <- require "edge_id" (ec_edge_id cfg) ;;
  let gateway_id_ := match ec_gateway_id cfg with Some g => g | None => edge_id end in
  name <- require "name" (ec_name cfg) ;;
  loc <- require "location" (ec_location cfg) ;;
  let sensors := match ec_sensors cfg with Some s => s | None => [] end in
  call (fun w => (tt, simulator_new Speed loc w)) ;;
  call (fun w => (tt, simulator_new Weather loc w)) ;;
  call (fun w => (tt, simulator_new Camera loc w)) ;;
  let buffer := deque_new 1000 in
  interval <- random_uniform (5 # 2) (9 # 2) ;;
  let speed_count := List.length (dict_get_default sensors "speed" []) in
  let weather_count := List.length (dict_get_default sensors "weather" []) in
  let camera_count := List.length (dict_get_default sensors "camera" []) in
  logger INFO (MsgGatewayInitialized speed_count weather_count camera_count) ;;
  ret {| district_id := district_id_;
         gateway_id := gateway_id_;
         gateway_name := name;
         gateway_location := loc;
         sensors_config := sensors;
         _sensors_edge_id := edge_id;
         kafka_topics := kafka_topics_;
         local_buffer := buffer;
         sampling_interval := interval |}.

(** [generate_sensor_data] *)
Definition generate_sensor_data (sensor_type : string) : M St (sensor_data reading) :=
  g <- get_self ;;
  if String.eqb sensor_type "speed" then
    lift (call_raising (generate_data Speed
            (dict_get_default (sensors_config g) "speed" [])
            (gateway_id g) (_sensors_edge_id g)))
  else if String.eqb sensor_type "weather" then
    lift (call_raising (generate_data Weather
            (dict_get_default (sensors_config g) "weather" [])
            (gateway_id g) (_sensors_edge_id g)))
  else if String.eqb sensor_type "camera" then
    lift (call_raising (generate_data Camera
            (dict_get_default (sensors_config g) "camera" [])
            (gateway_id g) (_sensors_edge_id g)))
  else ret NoData.

(** [if data: sensors.extend(data.get('readings', []))] *)
Definition extend_with (sensors : list reading) (data : sensor_data reading) : list reading :=
  if sensor_data_truthy data then sensors ++ get_readings data else sensors.

(** [generate_gateway_payload] *)
Definition generate_gateway_payload : M St (payload reading) :=
  let sensors := [] in
  speed_data <- generate_sensor_data "speed" ;;
  let sensors := extend_with sensors speed_data in
  weather_data <- generate_sensor_data "weather" ;;
  let sensors := extend_with sensors weather_data in
  camera_data <- generate_sensor_data "camera" ;;
  let sensors := extend_with sensors camera_data in
  g <- get_self ;;
  now <- lift (gets (fun p => utcnow_isoformat (world p))) ;;
  ret {| p_gateway_id := gateway_id g;
         p_district_id := district_id g;
         p_location := {| latitude := latitude (gateway_location g);
                          longitude := longitude (gateway_location g) |};
         p_last_updated := (now ++ "Z")%string;
         p_metadata :=
           {| md_name := gateway_name g;
              md_version := GATEWAY_VERSION;
              md_firmware := GATEWAY_FIRMWARE;
              md_sensor_counts :=
                {| count_speed := List.length (dict_get_default (sensors_config g) "speed" []);
                   count_weather := List.length (dict_get_default (sensors_config g) "weather" []);
                   count_camera := List.length (dict_get_default (sensors_config g) "camera" []) |} |};
         p_sensors := sensors |}.

(** The producer call of [send_to_kafka], recorded with its outcome. *)
Definition producer_send_and_get (topic key : string) (value : payload reading) : M Proc unit :=
  fun p =>
    let (r, w) := producer_send topic key value (world p) in
    (r, {| world := w;
           trace := trace p ++ [ProducerSend topic key value (is_ok r)] |}).

(** [send_to_kafka] *)
Definition send_to_kafka (data : payload reading) : M St bool :=
  try_except
    (g <- get_self ;;
     let topic := dict_get_default (kafka_topics g) "gateway" "city-gateway-data" in
     lift (logger INFO (MsgSending topic)) ;;
     lift (producer_send_and_get topic (gateway_id g) data) ;;
     let sensor_count := List.length (p_sensors data) in
     lift (logger INFO (MsgSent sensor_count topic)) ;;
     ret true)
    (fun e =>
     lift (logger ERROR MsgKafkaError) ;;
     update_buffer (fun b => deque_append b data) ;;
     ret false).

(** The [for message in messages_to_retry] loop with its [break]. *)
Fixpoint retry_each (messages : list (payload reading)) : M St unit :=
  match messages with
  | [] => ret tt
  | message :: rest =>
      sent <- send_to_kafka message ;;
      if negb sent then ret tt else retry_each rest
  end.

(** [retry_buffered_messages] *)
Definition retry_buffered_messages : M St unit :=
  g <- get_self ;;
  if Nat.eqb (deque_len (local_buffer g)) 0 then ret tt
  else
    lift (logger INFO (MsgRetrying (deque_len (local_buffer g)))) ;;
    let messages_to_retry := items (local_buffer g) in
    update_buffer deque_clear ;;
    retry_each messages_to_retry.

(** [self.stop_event.wait(timeout=self.sampling_interval)]; what it returns
    is not used. *)
Definition wait_interval : M St unit :=
  g <- get_self ;;
  lift (emit (EventWait (sampling_interval g))) ;;
  lift (call (stop_wait (sampling_interval g))) ;;
  ret tt.

(** The first half of the [try] block of [run]: the payload is generated
    and, when it has readings, sent. *)
Definition generate_and_send (iteration : Z) : M St unit :=
  lift (logger INFO (MsgIteration iteration)) ;;
  payload_ <- generate_gateway_payload ;;
  match p_sensors payload_ with
  | _ :: _ =>
      lift (logger INFO (MsgPayloadGenerated (List.length (p_sensors payload_)))) ;;
      send_to_kafka payload_ ;;
      ret tt
  | [] => lift (logger INFO MsgNoSensors)
  end.

(** [if iteration % 10 == 0: self.retry_buffered_messages()] *)
Definition periodic_retry (iteration : Z) : M St unit :=
  if iteration mod 10 =? 0 then retry_buffered_messages else ret tt.

(** The [try] block of one pass of the loop in [run], after
    [iteration += 1]. *)
Definition iteration_body (iteration : Z) : M St unit :=
  generate_and_send iteration ;;
  periodic_retry iteration ;;
  wait_interval.

(** One pass of the loop: the [try] block and its [except Exception]. *)
Definition iteration_step (iteration : Z) : M St unit :=
  try_except
    (iteration_body iteration)
    (fun e => lift (logger ERROR MsgLoopError) ;; wait_interval).

Inductive loop_status : Type := LoopExited | OutOfFuel.

(** [while not self.stop_event.is_set(): ...].  [iteration += 1] is the
    first statement of the [try] block and cannot raise, so the handler and
    the next pass see the incremented counter.  [fuel] bounds the number of
    passes. *)
Fixpoint run_loop (fuel : nat) (iteration : Z) : M St loop_status :=
  match fuel with
  | O => ret OutOfFuel
  | S fuel' =>
      stopped <- lift (gets (fun p => stop_is_set (world p))) ;;
      if stopped then ret LoopExited
      else
        let iteration := iteration + 1 in
        iteration_step iteration ;;
        run_loop fuel' iteration
  end.

(** [run] *)
Definition run (fuel : nat) : M St loop_status :=
  lift (logger INFO MsgStartingLoop) ;;
  status <- run_loop fuel 0 ;;
  match status with
  | LoopExited => lift (logger INFO MsgLoopStopped) ;; ret LoopExited
  | OutOfFuel => ret OutOfFuel
  end.

End EdgeManagerMethods.

(** ** [city_simulator.py] *)

Section CitySimulator.
Context {E : External}.

Definition str_of_N (n : N) : string := NilZero.string_of_uint (N.to_uint n).

Fixpoint zeros (n : nat) : string :=
  match n with O => "" | S n' => String "0"%char (zeros n') end.

(** [f"{index:05d}"]: the sign, then zeros up to a width of five, then the
    digits. *)
Definition format_05d (index : Z) : string :=
  let digits := str_of_N (Z.abs_N index) in
  let sign := if index <? 0 then "-" else "" in
  (sign ++ zeros (5 - String.length sign - String.length digits) ++ digits)%string.

(** [generate_edge_id] *)
Definition generate_edge_id (index : Z) : string :=
  ("E-" ++ format_05d index)%string.

(** [generate_gateway_id] *)
Definition generate_gateway_id (edge_id : string) : string :=
  ("GW-" ++ edge_id)%string.

Definition district_start (d : district) : Z :=
  match d_edge_range d with
  | Some r => match er_start r with Some z => z | None => 0 end
  | None => 0
  end.

Definition district_end (d : district) : Z :=
  match d_edge_range d with
  | Some r => match er_end r with Some z => z | None => 0 end
  | None => 0
  end.

(** [start <= edge_index <= end] *)
Definition district_contains (edge_index : Z) (d : district) : bool :=
  (district_start d <=? edge_index) && (edge_index <=? district_end d).

(** [find_district_for_edge]; [None] is Python's [None]. *)
Fixpoint find_district_scan (districts : list district) (edge_index : Z) : option district :=
  match districts with
  | [] => None
  | d :: rest =>
      if district_contains edge_index d then Some d
      else find_district_scan rest edge_index
  end.

Definition find_district_for_edge (districts : list district) (edge_index : Z) : option district :=
  match find_district_scan districts edge_index with
  | Some d => Some d
  | None => match districts with d0 :: _ => Some d0 | [] => None end
  end.

(** The truth value of what the lookup returns, as [if not district] tests
    it: [None] and the empty dict are false. *)
Definition district_truthy (d : option district) : bool :=
  match d with
  | None => false
  | Some d =>
      match d_district_id d, d_edge_range d, d_center d, d_other d with
      | None, None, None, O => false
      | _, _, _, _ => true
      end
  end.

(** [round(x, 6)], idealised: the code rounds a binary float, this rounds
    the exact rational to the nearest multiple of 1e-6, ties to the even
    one.  The two can differ in the last digit where the float is not the
    rational it stands for; nothing below depends on the rounded value. *)
Definition round6 (x : Q) : Q :=
  let n := Qnum x * 1000000 in
  let d := Zpos (Qden x) in
  let q := n / d in
  let r := n mod d in
  let up := if 2 * r <? d then false
            else if d <? 2 * r then true
            else negb (Z.even q) in
  Qmake (if up then q + 1 else q) 1000000.

Definition upper_ascii (c : ascii) : ascii :=
  let n := nat_of_ascii c in
  if ((97 <=? n) && (n <=? 122))%nat then ascii_of_nat (n - 32) else c.

Definition lower_ascii (c : ascii) : ascii :=
  let n := nat_of_ascii c in
  if ((65 <=? n) && (n <=? 90))%nat then ascii_of_nat (n + 32) else c.

Fixpoint lower_string (s : string) : string :=
  match s with
  | EmptyString => EmptyString
  | String c s' => String (lower_ascii c) (lower_string s')
  end.

(** [str.capitalize] on ASCII text. *)
Definition capitalize (s : string) : string :=
  match s with
  | EmptyString => EmptyString
  | String c s' => String (upper_ascii c) (lower_string s')
  end.

(** [chr(97 + i)], for the code points below 256. *)
Definition chr_97_plus (i : nat) : string :=
  String (ascii_of_nat (97 + i)) EmptyString.

(** The body of [for i in range(count)] in [generate_sensor_configs]. *)
Definition make_sensor (sensor_type edge_id : string) (i : nat) : M Proc sensor_cfg :=
  let sensor_id_ := (sensor_type ++ "-" ++ edge_id ++ "-" ++ chr_97_plus i)%string in
  offset_lat_ <- random_uniform (- (1 # 5000)) (1 # 5000) ;;
  offset_lon_ <- random_uniform (- (1 # 5000)) (1 # 5000) ;;
  ret {| sensor_id := sensor_id_;
         sensor_location :=
           (capitalize sensor_type ++ " sensor " ++ str_of_N (N.of_nat (i + 1)))%string;
         offset_lat := round6 offset_lat_;
         offset_lon := round6 offset_lon_ |}.

Fixpoint fill_sensors (sensors : sensors_dict) (sensor_type edge_id : string)
    (indices : list nat) : M Proc sensors_dict :=
  match indices with
  | [] => ret sensors
  | i :: rest =>
      s <- make_sensor sensor_type edge_id i ;;
      let sensors := dict_set sensors sensor_type
                       (dict_get_default sensors sensor_type [] ++ [s]) in
      fill_sensors sensors sensor_type edge_id rest
  end.

Fixpoint generate_sensor_configs_from (sensors : sensors_dict) (edge_id : string)
    (entries : list (string * Z)) : M Proc sensors_dict :=
  match entries with
  | [] => ret sensors
  | (sensor_type, count) :: rest =>
      let sensors := dict_set sensors sensor_type [] in
      sensors <- fill_sensors sensors sensor_type edge_id (seq 0 (Z.to_nat count)) ;;
      generate_sensor_configs_from sensors edge_id rest
  end.

(** [generate_sensor_configs] *)
Definition generate_sensor_configs (edge_id : string) (sensors_per_gateway : dict Z)
  : M Proc sensors_dict :=
  generate_sensor_configs_from [] edge_id sensors_per_gateway.

(** [calculate_instance_edge_range], as a step of the process. *)
Definition calculate_range (total_edges instance_id total_instances : Z) : M Proc (Z * Z) :=
  fun p => (Partition.calculate_instance_edge_range total_edges instance_id total_instances, p).

Definition default_center : center_cfg :=
  {| c_latitude := Some (4235 # 100); c_longitude := Some (1340 # 100) |}.

(** The body of the loop of [_initialize_edges] for one [edge_index];
    [None] is the [continue]. *)
Definition initialize_edge (districts : list district) (sensors_per_gateway : dict Z)
    (edge_index : Z) : M Proc (option EdgeManager) :=
  let edge_id := generate_edge_id edge_index in
  let gateway_id_ := generate_gateway_id edge_id in
  let found := find_district_for_edge districts edge_index in
  match found with
  | Some d =>
      if negb (district_truthy found) then ret None
      else
        district_id_ <- require "district_id" (d_district_id d) ;;
        let district_center := match d_center d with Some c => c | None => default_center end in
        lat <- require "latitude" (c_latitude district_center) ;;
        dlat <- random_uniform (- (1 # 50)) (1 # 50) ;;
        lon <- require "longitude" (c_longitude district_center) ;;
        dlon <- random_uniform (- (1 # 50)) (1 # 50) ;;
        let loc := {| latitude := (lat + dlat)%Q; longitude := (lon + dlon)%Q |} in
        sensors <- generate_sensor_configs edge_id sensors_per_gateway ;;
        let cfg := {| ec_gateway_id := Some gateway_id_;
                      ec_edge_id := Some edge_id;
                      ec_name := Some ("Gateway at " ++ edge_id)%string;
                      ec_location := Some loc;
                      ec_sensors := Some sensors |} in
        edge_manager <- EdgeManager_init district_id_ cfg KAFKA_TOPICS ;;
        ret (Some edge_manager)
  | None => ret None
  end.

Fixpoint initialize_edges_from (edge_managers : list EdgeManager)
    (districts : list district) (sensors_per_gateway : dict Z)
    (indices : list Z) : M Proc (list EdgeManager) :=
  match indices with
  | [] => ret edge_managers
  | edge_index :: rest =>
      made <- initialize_edge districts sensors_per_gateway edge_index ;;
      let edge_managers :=
        match made with
        | Some g => edge_managers ++ [g]
        | None => edge_managers
        end in
      initialize_edges_from edge_managers districts sensors_per_gateway rest
  end.

(** [CitySimulator._initialize_edges], for [self.edge_start],
    [self.edge_end], the districts and the sensor counts of the
    configuration; it returns [self.edge_managers]. *)
Definition _initialize_edges (edge_start edge_end : Z) (districts : list district)
    (sensors_per_gateway : dict Z) : M Proc (list EdgeManager) :=
  edge_managers <- initialize_edges_from [] districts sensors_per_gateway
                     (Partition.range_indices (edge_start, edge_end)) ;;
  logger INFO (MsgInitializedEdges (List.length edge_managers)) ;;
  ret edge_managers.

(** The part of [CitySimulator.__init__] that fixes the range and builds
    the gateways; reading the other settings and connecting the producer
    are left out. *)
Definition CitySimulator_init (total_edges : option Z) (districts : option (list district))
    (sensors_per_gateway : dict Z) : M Proc (Z * Z * list EdgeManager) :=
  let total := match total_edges with Some n => n | None => 3459 end in
  range <- calculate_range total INSTANCE_ID TOTAL_INSTANCES ;;
  let districts_ := match districts with Some l => l | None => [] end in
  edge_managers <- _initialize_edges (fst range) (snd range) districts_ sensors_per_gateway ;;
  ret (range, edge_managers).

End CitySimulator.


(** ** Vocabulary of the statements *)

Module PartitionSpec.

(** The start that [calculate_instance_edge_range] computes for instance
    [i], and the number of items between its start and its end. *)
Definition start_of (total n i : Z) : Z :=
  if i <? total mod n then i * (total / n + 1) else i * (total / n) + total mod n.

Definition size_of (total n i : Z) : Z :=
  if i <? total mod n then total / n + 1 else total / n.

Fixpoint sum_Z (l : list Z) : Z :=
  match l with [] => 0 | x :: l' => x + sum_Z l' end.

End PartitionSpec.

Section Vocabulary.
Context {E : External}.

Definition buffer_of (s : St) : list (payload reading) := items (local_buffer (self s)).

Definition trace_of (s : St) : list (event reading) := trace (proc s).

Definition world_of (s : St) : World := world (proc s).

(** The topic that [send_to_kafka] publishes to. *)
Definition topic_of (g : EdgeManager) : string :=
  dict_get_default (kafka_topics g) "gateway" "city-gateway-data".

(** The capacity that [__init__] gives the buffer. *)
Definition buffer_capacity : nat := 1000.

(** The buffer of [s] is the bounded deque of [__init__]. *)
Definition bounded_buffer (s : St) : Prop :=
  maxlen (local_buffer (self s)) = buffer_capacity.

(** The buffer of [s] is the bounded deque and holds no more than its
    capacity. *)
Definition buffer_ok (s : St) : Prop :=
  bounded_buffer s /\ (List.length (buffer_of s) <= buffer_capacity)%nat.

(** The producer calls of a trace, with their outcome. *)
Definition publishes (tr : list (event reading)) : list (payload reading * bool) :=
  flat_map (fun e => match e with
                     | ProducerSend _ _ value delivered => [(value, delivered)]
                     | _ => []
                     end) tr.

(** The time-outs of the waits of a trace. *)
Definition wait_timeouts (tr : list (event reading)) : list Q :=
  flat_map (fun e => match e with EventWait t => [t] | _ => [] end) tr.

(** The values that [random.uniform] returned in a trace. *)
Definition uniform_draws (tr : list (event reading)) : list Q :=
  flat_map (fun e => match e with RandomUniform _ _ v => [v] | _ => [] end) tr.


(** A stretch of trace without a wait and without a random draw. *)
Definition quiet (tr : list (event reading)) : Prop :=
  wait_timeouts tr = [] /\ uniform_draws tr = [].

(** [s] after it has logged [events]. *)
Definition with_events (s : St) (events : list (event reading)) : St :=
  {| proc := {| world := world_of s; trace := trace_of s ++ events |};
     self := self s |}.

(** The outcome of a replay of [batch] that logged [delta] and left
    [left] in the buffer: either every message was delivered, in the order
    of the batch, and nothing is left; or the messages before some message
    [m] were delivered in order, the call for [m] failed, and [m] alone is
    left. *)
Definition drained (batch : list (payload reading)) (delta : list (event reading))
    (left : list (payload reading)) : Prop :=
  (publishes delta = map (fun m => (m, true)) batch /\ left = []) \/
  (exists pre m post,
     batch = pre ++ m :: post /\
     publishes delta = map (fun m => (m, true)) pre ++ [(m, false)] /\
     left = [m]).

(** From [s] to [s'] the gateway only changed the content of its buffer. *)
Definition kept (s s' : St) : Prop :=
  self s' = set_local_buffer (self s) (local_buffer (self s')) /\
  maxlen (local_buffer (self s')) = maxlen (local_buffer (self s)).

(** The state after [k] more passes of the loop of [run], the counter being
    at [iteration] before the first of them. *)
Fixpoint after_iterations (k : nat) (iteration : Z) (s : St) : St :=
  match k with
  | O => s
  | S k' => after_iterations k' (iteration + 1) (snd (iteration_step (iteration + 1) s))
  end.

(** Calls of [send_to_kafka] in a row, one per payload, with nothing in
    between; the list of what they return. *)
Fixpoint send_each (payloads : list (payload reading)) : M St (list bool) :=
  match payloads with
  | [] => ret []
  | data :: rest =>
      sent <- send_to_kafka data ;;
      others <- send_each rest ;;
      ret (sent :: others)
  end.

(** A gateway without sensors: the three lists that [generate_data] gets
    are empty. *)
Definition no_sensors (g : EdgeManager) : Prop :=
  dict_get_default (sensors_config g) "speed" [] = [] /\
  dict_get_default (sensors_config g) "weather" [] = [] /\
  dict_get_default (sensors_config g) "camera" [] = [].

(** No call of a collaborator makes [P] false: for [P] the stop event being
    set, nothing clears the event. *)
Definition kept_by_collaborators (P : World -> Prop) : Prop :=
  (forall kind sensors gid eid w, P w -> P (snd (generate_data kind sensors gid eid w))) /\
  (forall topic key value w, P w -> P (snd (producer_send topic key value w))) /\
  (forall timeout w, P w -> P (snd (stop_wait timeout w))).

(** The simulators return no reading for an empty list of sensors (they
    may raise). *)
Definition silent_without_sensors : Prop :=
  forall kind gid eid w,
    match fst (generate_data kind [] gid eid w) with
    | Ok d => get_readings d = []
    | Raise _ => True
    end.

End Vocabulary.

(** ** A concrete world, for running the model *)

Module Scenario.

(** What a call of the speed simulator does: it returns one reading per
    sensor, it raises, or it returns [None]. *)
Inductive sim_mode : Type := Reads | Raises | Silent.

(** [outages]: the outcome of the coming producer calls ([true] fails; all
    succeed once the list is used up).  [faults]: what the coming calls of
    the speed simulator do (they read once the list is used up).
    [waits_left]: the number of waits after which the supervisor sets the
    stop event.  [ticks]: the waits so far. *)
Record sim_world : Type := {
  outages : list bool;
  faults : list sim_mode;
  waits_left : nat;
  ticks : nat
}.

Definition readings_for (cfgs : list sensor_cfg) : sensor_data string :=
  match cfgs with
  | [] => NoData
  | _ => Data (Some (map sensor_id cfgs))
  end.

Definition sim_generate (k : sensor_kind) (cfgs : list sensor_cfg) (gid eid : string)
    (w : sim_world) : result (sensor_data string) * sim_world :=
  match k, faults w with
  | Speed, fault :: rest =>
      let w' := {| outages := outages w; faults := rest;
                   waits_left := waits_left w; ticks := ticks w |} in
      match fault with
      | Raises => (Raise OtherException, w')
      | Silent => (Ok NoData, w')
      | Reads => (Ok (readings_for cfgs), w')
      end
  | _, _ => (Ok (readings_for cfgs), w)
  end.

Definition sim_send (topic key : string) (value : payload string) (w : sim_world)
  : result unit * sim_world :=
  match outages w with
  | outage :: rest =>
      let w' := {| outages := rest; faults := faults w;
                   waits_left := waits_left w; ticks := ticks w |} in
      if outage then (Raise OtherException, w') else (Ok tt, w')
  | [] => (Ok tt, w)
  end.

Definition sim_wait (timeout : Q) (w : sim_world) : bool * sim_world :=
  let left := Nat.pred (waits_left w) in
  (Nat.eqb left 0,
   {| outages := outages w; faults := faults w; waits_left := left;
      ticks := S (ticks w) |}).

(** The clock shows the number of waits so far. *)
Definition sim_clock (w : sim_world) : string :=
  ("t" ++ NilZero.string_of_uint (Nat.to_uint (ticks w)))%string.

Definition sim : External := {|
  World := sim_world;
  reading := string;
  INSTANCE_ID := 0;
  TOTAL_INSTANCES := 1;
  KAFKA_TOPICS := [("gateway", "city-gateway-data")];
  random_random := fun w => (1 # 2, w);
  utcnow_isoformat := sim_clock;
  simulator_new := fun _ _ w => w;
  generate_data := sim_generate;
  producer_send := sim_send;
  stop_is_set := fun w => Nat.eqb (waits_left w) 0;
  stop_wait := sim_wait
|}.

Definition centre : district :=
  {| d_district_id := Some "D1";
     d_edge_range := Some {| er_start := Some 0; er_end := Some 9 |};
     d_center := Some {| c_latitude := Some (4235 # 100); c_longitude := Some (1340 # 100) |};
     d_other := 1 |}.

Definition suburb : district :=
  {| d_district_id := Some "D2";
     d_edge_range := Some {| er_start := Some 5; er_end := Some 20 |};
     d_center := None;
     d_other := 1 |}.

Definition hills : district :=
  {| d_district_id := Some "D3";
     d_edge_range := Some {| er_start := Some 10; er_end := Some 30 |};
     d_center := None;
     d_other := 1 |}.

Definition start_world (outages_ : list bool) (faults_ : list sim_mode) (waits : nat)
  : @Proc sim :=
  @Build_Proc sim
    {| outages := outages_; faults := faults_; waits_left := waits; ticks := 0 |} [].

Definition blank : @EdgeManager sim :=
  @Build_EdgeManager sim "" "" "" {| latitude := 0; longitude := 0 |} [] "" []
    (deque_new 0) 0.

Definition edge0_config : edge_config :=
  {| ec_gateway_id := Some "GW-E-00000";
     ec_edge_id := Some "E-00000";
     ec_name := Some "Gateway at E-00000";
     ec_location := Some {| latitude := 4235 # 100; longitude := 1340 # 100 |};
     ec_sensors := Some [] |}.

(** The gateway of edge 0 with [speed] speed sensors, as
    [_initialize_edges] makes it, ready to run in a world with the given
    outages, faults and number of waits. *)
Definition gateway (speed : Z) (outages_ : list bool) (faults_ : list sim_mode)
    (waits : nat) : @St sim :=
  match @initialize_edge sim [centre] [("speed", speed)] 0
          (start_world outages_ faults_ waits) with
  | (Ok (Some g), p) => @Build_St sim (@Build_Proc sim (world p) []) g
  | (_, p) => @Build_St sim p blank
  end.

(** The state after the first [k] passes of the loop of [run]. *)
Definition passes (k : nat) (s : @St sim) : @St sim :=
  @after_iterations sim k 0 s.

(** Nine passes after which a payload that failed on the first pass is
    still buffered; the producer is up again but the speed simulator raises
    on the tenth pass. *)
Definition before_faulty_tenth : @St sim :=
  passes 9 (gateway 1 [true] (repeat Reads 9 ++ [Raises]) 100).

(** Nine passes that left the payloads of the first three in the buffer;
    on the tenth pass the producer takes the new payload and the first of
    the batch, and fails on the second. *)
Definition before_tenth : @St sim :=
  passes 9 (gateway 1 ([true; true; true] ++ repeat false 8 ++ [true]) [] 100).

(** Ten passes with the producer down all along: ten payloads fail, and
    so does the replay of the first of them on the tenth pass. *)
Definition after_outage : @St sim :=
  passes 10 (gateway 1 (repeat true 11) [] 100).

(** A gateway whose supervisor sets the stop event during the second
    wait. *)
Definition stopped_in_second_wait : @St sim := gateway 1 [] [] 2.

(** A gateway whose supervisor sets the stop event during the first wait. *)
Definition stopped_in_first_wait : @St sim := gateway 1 [] [] 1.

(** What [__init__] returns for the configuration of edge 0. *)
Definition created : result (@EdgeManager sim) * @Proc sim :=
  @EdgeManager_init sim "D1" edge0_config [("gateway", "city-gateway-data")]
    (start_world [] [] 5).

(** A gateway without sensors. *)
Definition bare_gateway : @St sim := gateway 0 [] [] 100.

End Scenario.

(** ** The simulators as [generate_sensor_data] documents them *)

Section DocumentedSimulators.
Context {E : External}.

(** [generate_sensor_data] returns "sensor data ..., or None if no
    sensors", and [run] logs "No sensors configured" for a payload without
    readings: a simulator has no reading for an empty list of sensors and
    at least one for a list that is not empty. *)
Definition readings_with_sensors : Prop :=
  forall kind sensors gid eid w d,
    sensors <> [] ->
    fst (generate_data kind sensors gid eid w) = Ok d ->
    get_readings d <> [].

Definition simulators_as_documented : Prop :=
  silent_without_sensors /\ readings_with_sensors.

End DocumentedSimulators.

(** The concrete world with simulators that return one reading per sensor
    and never raise. *)
Module Documented.

Definition one_reading_each (k : sensor_kind) (cfgs : list sensor_cfg) (gid eid : string)
    (w : Scenario.sim_world) : result (sensor_data string) * Scenario.sim_world :=
  (Ok (Scenario.readings_for cfgs), w).

Definition sim : External := {|
  World := Scenario.sim_world;
  reading := string;
  INSTANCE_ID := 0;
  TOTAL_INSTANCES := 1;
  KAFKA_TOPICS := [("gateway", "city-gateway-data")];
  random_random := fun w => (1 # 2, w);
  utcnow_isoformat := Scenario.sim_clock;
  simulator_new := fun _ _ w => w;
  generate_data := one_reading_each;
  producer_send := Scenario.sim_send;
  stop_is_set := fun w => Nat.eqb (Scenario.waits_left w) 0;
  stop_wait := Scenario.sim_wait
|}.

Definition blank : @EdgeManager sim :=
  @Build_EdgeManager sim "" "" "" {| latitude := 0; longitude := 0 |} [] "" []
    (deque_new 0) 0.

(** The gateway of edge 0 with [speed] speed sensors, as
    [_initialize_edges] makes it, in a world with the given outages and
    number of waits. *)
Definition gateway (speed : Z) (outages_ : list bool) (waits : nat) : @St sim :=
  match @initialize_edge sim [Scenario.centre] [("speed", speed)] 0
          (@Build_Proc sim
             {| Scenario.outages := outages_; Scenario.faults := [];
                Scenario.waits_left := waits; Scenario.ticks := 0 |} []) with
  | (Ok (Some g), p) => @Build_St sim (@Build_Proc sim (world p) []) g
  | (_, p) => @Build_St sim p blank
  end.

(** A gateway without sensors after nine passes. *)
Definition bare_after_nine : @St sim := @after_iterations sim 9 0 (gateway 0 [] 100).

End Documented.

(** ** Counting what fails *)

Section FaultVocabulary.
Context {E : External}.



End FaultVocabulary.

(** ** Exceptions outside class [Exception]

    Both handlers of [edge_manager.py] are [except Exception].  Python's
    [KeyboardInterrupt], [SystemExit] and [GeneratorExit] derive from
    [BaseException] only and pass through such a handler.  The methods of
    [EdgeManager] are given here a second time with collaborators that may
    throw these too; [exn] stays the class [Exception]. *)

Inductive base_exception : Type := KeyboardInterrupt | SystemExit | GeneratorExit.

Inductive thrown : Type :=
| OfException (e : exn)
| OutsideException (b : base_exception).

Inductive outcome (A : Type) : Type :=
| Returns (a : A)
| Throws (t : thrown).
Arguments Returns {A} a.
Arguments Throws {A} t.

Definition MX (S A : Type) : Type := S -> outcome A * S.

Definition retX {S A : Type} (a : A) : MX S A := fun s => (Returns a, s).

Definition bindX {S A B : Type} (m : MX S A) (k : A -> MX S B) : MX S B :=
  fun s => match m s with
           | (Returns a, s') => k a s'
           | (Throws t, s') => (Throws t, s')
           end.

(** [try: body  except Exception as e: handler e] *)
Definition except_Exception {S A : Type} (body : MX S A) (handler : exn -> MX S A)
  : MX S A :=
  fun s => match body s with
           | (Returns a, s') => (Returns a, s')
           | (Throws (OfException e), s') => handler e s'
           | (Throws (OutsideException b), s') => (Throws (OutsideException b), s')
           end.

Definition to_outcome {A : Type} (r : result A) : outcome A :=
  match r with Ok a => Returns a | Raise e => Throws (OfException e) end.

(** A step that throws nothing outside class [Exception]. *)
Definition embed {S A : Type} (m : M S A) : MX S A :=
  fun s => let (r, s') := m s in (to_outcome r, s').

Section Throwing.
Context {E : External}.

(** The simulators and the producer, free to throw anything. *)
Record collaborators : Type := {
  generate_dataX :
    sensor_kind -> list sensor_cfg -> string -> string ->
    World -> outcome (sensor_data reading) * World;
  producer_sendX :
    string -> string -> payload reading -> World -> outcome unit * World
}.

(** The collaborators of [E], which throw nothing outside class
    [Exception]. *)
Definition of_external : collaborators :=
  {| generate_dataX := fun kind sensors gid eid w =>
       let (r, w') := generate_data kind sensors gid eid w in (to_outcome r, w');
     producer_sendX := fun topic key value w =>
       let (r, w') := producer_send topic key value w in (to_outcome r, w') |}.

Variable C : collaborators.

Definition call_throwing {A : Type} (f : World -> outcome A * World) : MX St A :=
  fun s => let (r, w) := f (world (proc s)) in
           (r, {| proc := {| world := w; trace := trace (proc s) |}; self := self s |}).

(** [generate_sensor_data] *)
Definition generate_sensor_dataX (sensor_type : string) : MX St (sensor_data reading) :=
  bindX (embed get_self) (fun g =>
  if String.eqb sensor_type "speed" then
    call_throwing (generate_dataX C Speed
      (dict_get_default (sensors_config g) "speed" [])
      (gateway_id g) (_sensors_edge_id g))
  else if String.eqb sensor_type "weather" then
    call_throwing (generate_dataX C Weather
      (dict_get_default (sensors_config g) "weather" [])
      (gateway_id g) (_sensors_edge_id g))
  else if String.eqb sensor_type "camera" then
    call_throwing (generate_dataX C Camera
      (dict_get_default (sensors_config g) "camera" [])
      (gateway_id g) (_sensors_edge_id g))
  else retX NoData).

(** [generate_gateway_payload] *)
Definition generate_gateway_payloadX : MX St (payload reading) :=
  let sensors := [] in
  bindX (generate_sensor_dataX "speed") (fun speed_data =>
  let sensors := extend_with sensors speed_data in
  bindX (generate_sensor_dataX "weather") (fun weather_data =>
  let sensors := extend_with sensors weather_data in
  bindX (generate_sensor_dataX "camera") (fun camera_data =>
  let sensors := extend_with sensors camera_data in
  bindX (embed get_self) (fun g =>
  bindX (embed (lift (gets (fun p => utcnow_isoformat (world p))))) (fun now =>
  retX {| p_gateway_id := gateway_id g;
          p_district_id := district_id g;
          p_location := {| latitude := latitude (gateway_location g);
                           longitude := longitude (gateway_location g) |};
          p_last_updated := (now ++ "Z")%string;
          p_metadata :=
            {| md_name := gateway_name g;
               md_version := GATEWAY_VERSION;
               md_firmware := GATEWAY_FIRMWARE;
               md_sensor_counts :=
                 {| count_speed := List.length (dict_get_default (sensors_config g) "speed" []);
                    count_weather := List.length (dict_get_default (sensors_config g) "weather" []);
                    count_camera := List.length (dict_get_default (sensors_config g) "camera" []) |} |};
          p_sensors := sensors |}))))).

(** The producer call of [send_to_kafka], recorded with its outcome. *)
Definition producer_send_and_getX (topic key : string) (value : payload reading)
  : MX St unit :=
  fun s =>
    let (r, w) := producer_sendX C topic key value (world (proc s)) in
    (r, {| proc := {| world := w;
                      trace := trace (proc s) ++
                        [ProducerSend topic key value
                           (match r with Returns _ => true | Throws _ => false end)] |};
           self := self s |}).

(** [send_to_kafka] *)
Definition send_to_kafkaX (data : payload reading) : MX St bool :=
  except_Exception
    (bindX (embed get_self) (fun g =>
     let topic := dict_get_default (kafka_topics g) "gateway" "city-gateway-data" in
     bindX (embed (lift (logger INFO (MsgSending topic)))) (fun _ =>
     bindX (producer_send_and_getX topic (gateway_id g) data) (fun _ =>
     let sensor_count := List.length (p_sensors data) in
     bindX (embed (lift (logger INFO (MsgSent sensor_count topic)))) (fun _ =>
     retX true)))))
    (fun e =>
     bindX (embed (lift (logger ERROR MsgKafkaError))) (fun _ =>
     bindX (embed (update_buffer (fun b => deque_append b data))) (fun _ =>
     retX false))).

(** The [for message in messages_to_retry] loop with its [break]. *)
Fixpoint retry_eachX (messages : list (payload reading)) : MX St unit :=
  match messages with
  | [] => retX tt
  | message :: rest =>
      bindX (send_to_kafkaX message) (fun sent =>
      if negb sent then retX tt else retry_eachX rest)
  end.

(** [retry_buffered_messages] *)
Definition retry_buffered_messagesX : MX St unit :=
  bindX (embed get_self) (fun g =>
  if Nat.eqb (deque_len (local_buffer g)) 0 then retX tt
  else
    bindX (embed (lift (logger INFO (MsgRetrying (deque_len (local_buffer g)))))) (fun _ =>
    let messages_to_retry := items (local_buffer g) in
    bindX (embed (update_buffer deque_clear)) (fun _ =>
    retry_eachX messages_to_retry))).

(** The [try] block of one pass of the loop in [run], after
    [iteration += 1]. *)
Definition iteration_bodyX (iteration : Z) : MX St unit :=
  bindX (embed (lift (logger INFO (MsgIteration iteration)))) (fun _ =>
  bindX generate_gateway_payloadX (fun payload_ =>
  bindX (match p_sensors payload_ with
         | _ :: _ =>
             bindX (embed (lift (logger INFO
                      (MsgPayloadGenerated (List.length (p_sensors payload_)))))) (fun _ =>
             bindX (send_to_kafkaX payload_) (fun _ => retX tt))
         | [] => embed (lift (logger INFO MsgNoSensors))
         end) (fun _ =>
  bindX (if iteration mod 10 =? 0 then retry_buffered_messagesX else retX tt) (fun _ =>
  embed wait_interval)))).

(** One pass of the loop: the [try] block and its [except Exception]. *)
Definition iteration_stepX (iteration : Z) : MX St unit :=
  except_Exception
    (iteration_bodyX iteration)
    (fun e => bindX (embed (lift (logger ERROR MsgLoopError))) (fun _ => embed wait_interval)).

(** [while not self.stop_event.is_set(): ...], with [fuel] passes at
    most. *)
Fixpoint run_loopX (fuel : nat) (iteration : Z) : MX St loop_status :=
  match fuel with
  | O => retX OutOfFuel
  | S fuel' =>
      bindX (embed (lift (gets (fun p => stop_is_set (world p))))) (fun stopped =>
      if stopped then retX LoopExited
      else
        let iteration := iteration + 1 in
        bindX (iteration_stepX iteration) (fun _ =>
        run_loopX fuel' iteration))
  end.

End Throwing.

(** A simulator that calls [sys.exit()], in the concrete world. *)
Module Exiting.

Definition exits (kind : sensor_kind) (sensors : list sensor_cfg) (gid eid : string)
    (w : Scenario.sim_world) : outcome (sensor_data string) * Scenario.sim_world :=
  (Throws (OutsideException SystemExit), w).

Definition sends (topic key : string) (value : payload string) (w : Scenario.sim_world)
  : outcome unit * Scenario.sim_world :=
  let (r, w') := Scenario.sim_send topic key value w in (to_outcome r, w').

Definition collaborators : @collaborators Scenario.sim :=
  @Build_collaborators Scenario.sim exits sends.


End Exiting.

(** ** Vocabulary of the further properties *)

From Stdlib Require DecimalPos DecimalN.

(** Reading back a decimal numeral, leading zeros allowed. *)
Definition parse_index (s : string) : option N :=
  option_map N.of_uint (NilEmpty.uint_of_string s).

(** Reading back the index of an edge id. *)
Definition edge_index_of_id (id : string) : option N :=
  match id with
  | String "E"%char (String "-"%char s) => parse_index s
  | _ => None
  end.

Section FurtherVocabulary.
Context {E : External}.

(** The topic and the key of each producer call of a trace. *)
Definition producer_calls (tr : list (event reading)) : list (string * string) :=
  flat_map (fun e => match e with
                     | ProducerSend topic key _ _ => [(topic, key)]
                     | _ => []
                     end) tr.

(** The payloads of the producer calls that failed, in a trace. *)
Definition failed_publishes (tr : list (event reading)) : list (payload reading) :=
  flat_map (fun x : payload reading * bool => if snd x then [] else [fst x])
    (publishes tr).

(** Every payload in the buffer of [s] is one whose producer call failed
    earlier in the trace of [s]. *)
Definition buffered_after_failure (s : St) : Prop :=
  forall m, In m (buffer_of s) -> In m (failed_publishes (trace_of s)).

(** Every producer call in the trace of [s] went to the gateway topic
    with the id of the gateway as key. *)
Definition calls_keyed_by_gateway (s : St) : Prop :=
  Forall (fun c => c = (topic_of (self s), gateway_id (self s)))
         (producer_calls (trace_of s)).

End FurtherVocabulary.

(** A district that [_initialize_edges] can build a gateway in: it has its
    id, and its centre, when it has one, has both coordinates. *)
Definition usable_district (d : district) : bool :=
  match d_district_id d with
  | None => false
  | Some _ =>
      match d_center d with
      | None => true
      | Some c =>
          match c_latitude c, c_longitude c with
          | Some _, Some _ => true
          | _, _ => false
          end
      end
  end.

(** The id of the district that the lookup gives an edge. *)
Definition district_id_for (districts : list district) (edge_index : Z) : option string :=
  match find_district_for_edge districts edge_index with
  | Some d => d_district_id d
  | None => None
  end.

(** The sensors that a configuration asks for, all types together. *)
Definition sensors_requested (sensors_per_gateway : dict Z) : nat :=
  list_sum (map (fun kc => Z.to_nat (snd kc)) sensors_per_gateway).

Module Unusable.

(** The empty dict as a district. *)
Definition empty_district : district :=
  {| d_district_id := None; d_edge_range := None; d_center := None; d_other := 0 |}.

(** A district with a range and no id. *)
Definition nameless : district :=
  {| d_district_id := None;
     d_edge_range := Some {| er_start := Some 0; er_end := Some 9 |};
     d_center := None;
     d_other := 0 |}.

(** A configuration without ['edge_id'], with ['gateway_id']. *)
Definition no_edge_id : edge_config :=
  {| ec_gateway_id := Some "GW-E-00000";
     ec_edge_id := None;
     ec_name := Some "Gateway at E-00000";
     ec_location := Some {| latitude := 4235 # 100; longitude := 1340 # 100 |};
     ec_sensors := Some [] |}.

(** A configuration with ['edge_id'], ['name'] and ['location'] only. *)
Definition minimal : edge_config :=
  {| ec_gateway_id := None;
     ec_edge_id := Some "E-00007";
     ec_name := Some "Gateway at E-00007";
     ec_location := Some {| latitude := 4235 # 100; longitude := 1340 # 100 |};
     ec_sensors := None |}.

End Unusable.
(** * Properties *)

(** ** The partition of the edge indices *)

Module PartitionFacts.
Import Partition PartitionSpec.

Example partition_3459_4 :
  all_ranges 3459 4 =
  [Ok (0, 864); Ok (865, 1729); Ok (1730, 2594); Ok (2595, 3458)].
Proof. reflexivity. Qed.

Example partition_degenerate :
  all_ranges 2 4 = [Ok (0, 0); Ok (1, 1); Ok (2, 1); Ok (2, 1)].
Proof. reflexivity. Qed.


Lemma calculate_ok total i n :
  n <> 0 ->
  calculate_instance_edge_range total i n
  = Ok (start_of total n i, start_of total n i + size_of total n i - 1).
Proof.
  intros Hn. unfold calculate_instance_edge_range, start_of, size_of.
  destruct (Z.eqb_spec n 0) as [->|_]; [congruence|].
  destruct (i <? total mod n); f_equal; f_equal; lia.
Qed.

Section Facts.
Variables total n : Z.
Hypothesis Htotal : 0 <= total.
Hypothesis Hn : 1 <= n.

Let b := total / n.
Let r := total mod n.

Lemma total_split : total = n * b + r /\ 0 <= r < n /\ 0 <= b.
Proof.
  subst b r.
  pose proof (Z.div_mod total n ltac:(lia)).
  pose proof (Z.mod_pos_bound total n ltac:(lia)).
  pose proof (Z.div_pos total n Htotal ltac:(lia)).
  lia.
Qed.

Lemma size_nonneg i : 0 <= size_of total n i.
Proof.
  destruct total_split as (_ & _ & Hb). unfold size_of. fold b r.
  destruct (i <? r); lia.
Qed.

Lemma start_succ i :
  0 <= i -> start_of total n (i + 1) = start_of total n i + size_of total n i.
Proof.
  intros Hi. unfold start_of, size_of. fold b r.
  destruct (Z.ltb_spec i r), (Z.ltb_spec (i + 1) r); lia.
Qed.

Lemma start_zero : start_of total n 0 = 0.
Proof.
  destruct total_split as (_ & Hr & _).
  unfold start_of. fold b r. destruct (Z.ltb_spec 0 r); lia.
Qed.

Lemma start_last : start_of total n n = total.
Proof.
  destruct total_split as (Ht & Hr & _).
  unfold start_of. fold b r. destruct (Z.ltb_spec n r); lia.
Qed.

Lemma start_mono i j :
  0 <= i -> i <= j -> start_of total n i <= start_of total n j.
Proof.
  intros Hi Hij.
  replace j with (i + Z.of_nat (Z.to_nat (j - i))) by lia.
  induction (Z.to_nat (j - i)) as [|k IH]; [rewrite Z.add_0_r; lia|].
  replace (i + Z.of_nat (S k)) with (i + Z.of_nat k + 1) by lia.
  rewrite start_succ by lia.
  pose proof (size_nonneg (i + Z.of_nat k)). lia.
Qed.

(** Every index below [total] lies in the range of some instance. *)
Lemma owner_exists x :
  0 <= x < total ->
  exists i, 0 <= i < n /\ start_of total n i <= x < start_of total n i + size_of total n i.
Proof.
  intros Hx. destruct total_split as (Ht & Hr & Hb).
  destruct (Z_lt_le_dec x (r * (b + 1))) as [Hlow|Hhigh].
  - exists (x / (b + 1)).
    assert (Hq : 0 <= x / (b + 1) < r).
    { split; [apply Z.div_pos; lia | apply Z.div_lt_upper_bound; lia]. }
    pose proof (Z.div_mod x (b + 1) ltac:(lia)) as Hdm.
    pose proof (Z.mod_pos_bound x (b + 1) ltac:(lia)) as Hm.
    unfold start_of, size_of. fold b r.
    destruct (Z.ltb_spec (x / (b + 1)) r); [|lia].
    split; [lia|]. nia.
  - assert (Hbpos : 0 < b) by nia.
    exists ((x - r) / b).
    assert (Hq : r <= (x - r) / b < n).
    { split; [apply Z.div_le_lower_bound; nia | apply Z.div_lt_upper_bound; nia]. }
    pose proof (Z.div_mod (x - r) b ltac:(lia)) as Hdm.
    pose proof (Z.mod_pos_bound (x - r) b ltac:(lia)) as Hm.
    unfold start_of, size_of. fold b r.
    destruct (Z.ltb_spec ((x - r) / b) r); [lia|].
    split; [lia|]. nia.
Qed.

End Facts.


Lemma sum_Z_app l1 l2 : sum_Z (l1 ++ l2) = sum_Z l1 + sum_Z l2.
Proof. induction l1 as [|x l1 IH]; simpl; lia. Qed.

Lemma sum_sizes total n k :
  0 <= total -> 1 <= n ->
  sum_Z (map (fun i => size_of total n (Z.of_nat i)) (seq 0 k))
  = start_of total n (Z.of_nat k).
Proof.
  intros Ht Hn. induction k as [|k IH].
  - simpl. symmetry. apply start_zero; assumption.
  - rewrite seq_S, map_app, sum_Z_app, IH. cbn [map sum_Z Nat.add].
    replace (Z.of_nat (S k)) with (Z.of_nat k + 1) by lia.
    rewrite start_succ by lia. lia.
Qed.

End PartitionFacts.

(** C1.  For [total_items >= 0] and [total_instances >= 1], every
    [instance_id] in [[0, total_instances)] gets an inclusive range whose
    size [end - start + 1] is [base + 1] below the remainder and [base]
    from it on; the ranges follow one another in the order of the ids
    without a gap, from index 0 to [total_items - 1]; they are pairwise
    disjoint; their union is exactly [[0, total_items)]; two sizes differ by
    at most one; the sizes add up to [total_items]. *)
Theorem partition_exact (total_items total_instances : Z) :
  0 <= total_items -> 1 <= total_instances ->
  let base := total_items / total_instances in
  let remainder := total_items mod total_instances in
  let range i :=
    Partition.calculate_instance_edge_range total_items i total_instances in
  (forall i, 0 <= i < total_instances ->
     exists s e, range i = Ok (s, e) /\
       e - s + 1 = (if i <? remainder then base + 1 else base) /\
       Partition.range_size (s, e) = e - s + 1) /\
  (exists e, range 0 = Ok (0, e)) /\
  (forall i s e s' e', 0 <= i -> i + 1 < total_instances ->
     range i = Ok (s, e) -> range (i + 1) = Ok (s', e') -> s' = e + 1) /\
  (exists s, range (total_instances - 1) = Ok (s, total_items - 1)) /\
  (forall i j ri rj x,
     0 <= i < total_instances -> 0 <= j < total_instances -> i <> j ->
     range i = Ok ri -> range j = Ok rj ->
     ~ (Partition.in_range x ri /\ Partition.in_range x rj)) /\
  (forall x, 0 <= x < total_items <->
     exists i r, 0 <= i < total_instances /\ range i = Ok r /\
                 Partition.in_range x r) /\
  (forall i j ri rj,
     0 <= i < total_instances -> 0 <= j < total_instances ->
     range i = Ok ri -> range j = Ok rj ->
     Z.abs (Partition.range_size ri - Partition.range_size rj) <= 1) /\
  PartitionSpec.sum_Z
    (map Partition.range_size
       (Partition.ok_ranges (Partition.all_ranges total_items total_instances)))
  = total_items.
Proof.
  intros Ht Hn base remainder range.
  assert (Hrange : forall i, range i =
            Ok (PartitionSpec.start_of total_items total_instances i,
                PartitionSpec.start_of total_items total_instances i
                + PartitionSpec.size_of total_items total_instances i - 1)).
  { intros i. apply PartitionFacts.calculate_ok. lia. }
  pose proof (PartitionFacts.size_nonneg _ _ Ht Hn) as Hsize.
  pose proof (PartitionFacts.start_succ total_items total_instances) as Hsucc.
  pose proof (PartitionFacts.start_mono _ _ Ht Hn) as Hmono.
  assert (Hsz : forall i, Partition.range_size
            (PartitionSpec.start_of total_items total_instances i,
             PartitionSpec.start_of total_items total_instances i
             + PartitionSpec.size_of total_items total_instances i - 1)
            = PartitionSpec.size_of total_items total_instances i).
  { intros i. unfold Partition.range_size. cbn [fst snd]. specialize (Hsize i). lia. }
  repeat apply conj.
  - intros i Hi. eexists _, _. split; [apply Hrange|].
    split; [|rewrite Hsz]; unfold PartitionSpec.size_of; fold remainder base;
      destruct (i <? remainder); lia.
  - eexists. rewrite Hrange, (PartitionFacts.start_zero _ _ Ht Hn). reflexivity.
  - intros i s e s' e' Hi Hi'. rewrite !Hrange. intros [= <- <-] [= <- <-].
    rewrite Hsucc by lia. lia.
  - eexists. rewrite Hrange. f_equal. f_equal.
    pose proof (Hsucc (total_instances - 1) ltac:(lia)) as Hlast.
    replace (total_instances - 1 + 1) with total_instances in Hlast by lia.
    rewrite (PartitionFacts.start_last _ _ Ht Hn) in Hlast. lia.
  - intros i j ri rj x Hi Hj Hij. rewrite !Hrange. intros [= <-] [= <-].
    unfold Partition.in_range. cbn [fst snd]. intros [Hxi Hxj].
    destruct (Z_lt_le_dec i j).
    + pose proof (Hmono (i + 1) j ltac:(lia) ltac:(lia)).
      rewrite Hsucc in * by lia. lia.
    + pose proof (Hmono (j + 1) i ltac:(lia) ltac:(lia)).
      rewrite Hsucc in * by lia. lia.
  - intros x. split.
    + intros Hx.
      destruct (PartitionFacts.owner_exists _ _ Ht Hn x Hx) as (i & Hi & Hin).
      exists i. eexists. split; [exact Hi|]. split; [apply Hrange|].
      unfold Partition.in_range. cbn [fst snd]. lia.
    + intros (i & r & Hi & Hr & Hin). rewrite Hrange in Hr. injection Hr as <-.
      unfold Partition.in_range in Hin. cbn [fst snd] in Hin.
      pose proof (Hmono 0 i ltac:(lia) ltac:(lia)) as H0.
      rewrite (PartitionFacts.start_zero _ _ Ht Hn) in H0.
      pose proof (Hmono (i + 1) total_instances ltac:(lia) ltac:(lia)) as H1.
      rewrite Hsucc in H1 by lia.
      rewrite (PartitionFacts.start_last _ _ Ht Hn) in H1. lia.
  - intros i j ri rj Hi Hj. rewrite !Hrange. intros [= <-] [= <-].
    rewrite !Hsz. unfold PartitionSpec.size_of.
    destruct (i <? _), (j <? _); lia.
  - unfold Partition.all_ranges, Partition.ok_ranges.
    transitivity (PartitionSpec.sum_Z
      (map (fun i => PartitionSpec.size_of total_items total_instances (Z.of_nat i))
           (seq 0 (Z.to_nat total_instances)))).
    2:{ rewrite PartitionFacts.sum_sizes by assumption.
        rewrite Z2Nat.id by lia. apply PartitionFacts.start_last; assumption. }
    generalize (Z.to_nat total_instances) as k.
    intros k. generalize 0%nat as a.
    induction k as [|k IH]; intros a; [reflexivity|].
    cbn [seq map flat_map].
    pose proof (Hrange (Z.of_nat a)) as Ha. unfold range in Ha. rewrite Ha.
    cbn [app map PartitionSpec.sum_Z].
    rewrite Hsz. f_equal. apply IH.
Qed.

(** The example of the specification: 3459 edges over 4 instances. *)
Lemma partition_exact_witness :
  exists s, Partition.calculate_instance_edge_range 3459 (4 - 1) 4 = Ok (s, 3459 - 1).
Proof.
  assert (H0 : 0 <= 3459) by lia. assert (H1 : 1 <= 4) by lia.
  destruct (partition_exact 3459 4 H0 H1) as (_ & _ & _ & Hlast & _).
  exact Hlast.
Defined.

(** ** The gateway: publishing and buffering *)

Section GatewayFacts.
Context {E : External}.

Ltac unfold_m :=
  unfold bind, ret, raise, try_except, gets, modify, lift, get_self,
    update_buffer, logger, emit, call, call_raising, producer_send_and_get.

(** [send_to_kafka] makes one producer call and never raises: it returns
    [True] when the call succeeds, and logs an error, buffers the payload
    and returns [False] when it fails. *)
Lemma send_to_kafka_eq (data : payload reading) (s : St) :
  send_to_kafka data s =
  let g := self s in
  let out := producer_send (topic_of g) (gateway_id g) data (world_of s) in
  match fst out with
  | Ok _ =>
      (Ok true,
       {| proc := {| world := snd out;
                     trace := trace_of s ++
                       [Log INFO (MsgSending (topic_of g));
                        ProducerSend (topic_of g) (gateway_id g) data true;
                        Log INFO (MsgSent (List.length (p_sensors data)) (topic_of g))] |};
          self := g |})
  | Raise _ =>
      (Ok false,
       {| proc := {| world := snd out;
                     trace := trace_of s ++
                       [Log INFO (MsgSending (topic_of g));
                        ProducerSend (topic_of g) (gateway_id g) data false;
                        Log ERROR MsgKafkaError] |};
          self := set_local_buffer g (deque_append (local_buffer g) data) |})
  end.
Proof.
  unfold send_to_kafka, topic_of, world_of, trace_of. unfold_m. cbn.
  destruct (producer_send _ _ data (world (proc s))) as [[u|e] w]; cbn;
    rewrite <- !app_assoc; reflexivity.
Qed.


Lemma set_local_buffer_same (g : EdgeManager) :
  set_local_buffer g (local_buffer g) = g.
Proof. destruct g; reflexivity. Qed.

Lemma publishes_app (t1 t2 : list (event reading)) :
  publishes (t1 ++ t2) = publishes t1 ++ publishes t2.
Proof. apply flat_map_app. Qed.

(** The replay loop never raises.  Either every message of the batch is
    delivered, in order, and the buffer is as before; or the messages
    before the first failure are delivered in order, the failing one is
    attempted and appended to the buffer, and nothing after it is touched. *)
Lemma retry_each_spec (msgs : list (payload reading)) :
  forall s : St, exists s' delta,
    retry_each msgs s = (Ok tt, s') /\
    trace_of s' = trace_of s ++ delta /\
    quiet delta /\
    self s' = set_local_buffer (self s) (local_buffer (self s')) /\
    ((publishes delta = map (fun m => (m, true)) msgs /\
      local_buffer (self s') = local_buffer (self s))
     \/
     (exists pre m post,
        msgs = pre ++ m :: post /\
        publishes delta = map (fun m => (m, true)) pre ++ [(m, false)] /\
        local_buffer (self s') = deque_append (local_buffer (self s)) m)).
Proof.
  induction msgs as [|m rest IH]; intros s.
  - exists s, []. cbn. unfold trace_of. rewrite app_nil_r, set_local_buffer_same.
    repeat split. left. split; reflexivity.
  - cbn [retry_each]. unfold bind at 1. rewrite send_to_kafka_eq. cbv zeta.
    destruct (fst (producer_send _ _ m (world_of s))) as [u|e].
    + cbn [negb].
      match goal with |- context [retry_each rest ?s1] =>
        destruct (IH s1) as (s' & delta & Hrun & Htr & [Hw Hd] & Hself & Hout) end.
      eexists s', (_ ++ delta). rewrite Hrun. split; [reflexivity|].
      split; [rewrite Htr; unfold trace_of; cbn; rewrite <- app_assoc; reflexivity|].
      split; [split; [exact Hw | exact Hd]|].
      split; [exact Hself|].
      rewrite publishes_app. cbn [publishes flat_map app].
      destruct Hout as [[Hp Hb]|(pre & m' & post & Hm & Hp & Hb)].
      * left. split; [rewrite Hp; reflexivity | exact Hb].
      * right. exists (m :: pre), m', post. subst rest.
        split; [reflexivity|]. split; [rewrite Hp; reflexivity | exact Hb].
    + cbn [negb]. unfold ret. eexists _, _. split; [reflexivity|].
      split; [unfold trace_of; cbn; reflexivity|].
      split; [split; reflexivity|].
      split; [reflexivity|].
      right. exists [], m, rest. repeat split.
Qed.

(** Generating one kind of readings only touches the world. *)
Lemma generate_sensor_data_eq (sensor_type : string) (s : St) :
  exists r w,
    generate_sensor_data sensor_type s =
    (r, {| proc := {| world := w; trace := trace_of s |}; self := self s |}).
Proof.
  unfold generate_sensor_data, trace_of. unfold_m. cbn.
  destruct s as [[w tr] g]; cbn.
  repeat match goal with
         | |- context [if ?b then _ else _] => destruct b
         | |- context [generate_data ?k ?c ?g ?e ?w] =>
             destruct (generate_data k c g e w) as [r w']
         end; eexists _, _; reflexivity.
Qed.

(** So does assembling the payload, whether it returns or raises. *)
Lemma generate_gateway_payload_eq (s : St) :
  exists r w,
    generate_gateway_payload s =
    (r, {| proc := {| world := w; trace := trace_of s |}; self := self s |}).
Proof.
  unfold generate_gateway_payload. unfold bind at 1.
  destruct (generate_sensor_data_eq "speed" s) as (r1 & w1 & ->).
  destruct r1 as [d1|e]; [|eexists _, _; reflexivity].
  unfold bind at 1.
  match goal with |- context [generate_sensor_data "weather" ?s1] =>
    destruct (generate_sensor_data_eq "weather" s1) as (r2 & w2 & ->) end.
  destruct r2 as [d2|e]; [|eexists _, _; reflexivity].
  unfold bind at 1.
  match goal with |- context [generate_sensor_data "camera" ?s1] =>
    destruct (generate_sensor_data_eq "camera" s1) as (r3 & w3 & ->) end.
  destruct r3 as [d3|e]; [|eexists _, _; reflexivity].
  unfold_m. cbn. eexists _, _; reflexivity.
Qed.

Lemma wait_interval_eq (s : St) :
  wait_interval s =
  (Ok tt,
   {| proc := {| world := snd (stop_wait (sampling_interval (self s)) (world_of s));
                 trace := trace_of s ++ [EventWait (sampling_interval (self s))] |};
      self := self s |}).
Proof.
  unfold wait_interval, world_of, trace_of. unfold_m. cbn.
  destruct (stop_wait _ _) as [b w]. reflexivity.
Qed.

(** [retry_buffered_messages] does nothing on an empty buffer; otherwise it
    logs, empties the buffer and replays what it held. *)
Lemma retry_buffered_messages_eq (s : St) :
  retry_buffered_messages s =
  match buffer_of s with
  | [] => (Ok tt, s)
  | _ :: _ =>
      retry_each (buffer_of s)
        {| proc := {| world := world_of s;
                      trace := trace_of s ++ [Log INFO (MsgRetrying (List.length (buffer_of s)))] |};
           self := set_local_buffer (self s) (deque_clear (local_buffer (self s))) |}
  end.
Proof.
  unfold retry_buffered_messages, buffer_of, world_of, trace_of, deque_len. unfold_m. cbn.
  destruct (items (local_buffer (self s))) as [|m l]; reflexivity.
Qed.

Lemma kept_refl (s : St) : kept s s.
Proof. split; [symmetry; apply set_local_buffer_same | reflexivity]. Qed.

Lemma kept_trans (s1 s2 s3 : St) : kept s1 s2 -> kept s2 s3 -> kept s1 s3.
Proof.
  intros [H1 M1] [H2 M2]. split; [|congruence].
  rewrite H2, H1. reflexivity.
Qed.

Lemma kept_same_self (s s' : St) : self s' = self s -> kept s s'.
Proof. intros H. unfold kept. rewrite H. apply kept_refl. Qed.

Lemma maxlen_deque_append {A : Type} (d : deque A) (x : A) :
  maxlen (deque_append d x) = maxlen d.
Proof. reflexivity. Qed.

Lemma send_to_kafka_kept (data : payload reading) (s : St) :
  kept s (snd (send_to_kafka data s)).
Proof.
  rewrite send_to_kafka_eq. cbv zeta.
  destruct (fst (producer_send _ _ data (world_of s))); cbn [snd].
  - apply kept_same_self. reflexivity.
  - split; reflexivity.
Qed.

Lemma retry_buffered_messages_spec (s : St) :
  (1 <= maxlen (local_buffer (self s)))%nat ->
  exists s' delta,
    retry_buffered_messages s = (Ok tt, s') /\
    trace_of s' = trace_of s ++ delta /\
    kept s s' /\
    drained (buffer_of s) delta (buffer_of s').
Proof.
  intros Hmax. rewrite retry_buffered_messages_eq.
  destruct (buffer_of s) as [|m0 l] eqn:Hbuf.
  - exists s, []. unfold trace_of. rewrite app_nil_r.
    repeat split; try apply kept_refl. left. split; [reflexivity | exact Hbuf].
  - match goal with |- context [retry_each _ ?s1] =>
      destruct (retry_each_spec (m0 :: l) s1) as (s' & delta & Hrun & Htr & _ & Hself & Hout) end.
    exists s'. eexists (_ :: delta). rewrite Hrun. split; [reflexivity|].
    split; [rewrite Htr; unfold trace_of; cbn; rewrite <- app_assoc; reflexivity|].
    cbn [self] in Hself, Hout.
    assert (Hmax' : maxlen (local_buffer (self s')) = maxlen (local_buffer (self s))).
    { destruct Hout as [[_ Hb]|(pre & m & post & _ & _ & Hb)]; rewrite Hb; reflexivity. }
    split; [split; [exact Hself | exact Hmax']|].
    unfold drained. cbn [publishes flat_map app]. fold (publishes delta).
    destruct Hout as [[Hp Hb]|(pre & m & post & Hm & Hp & Hb)].
    + left. split; [exact Hp|]. unfold buffer_of. rewrite Hb. reflexivity.
    + right. exists pre, m, post. split; [exact Hm|]. split; [exact Hp|].
      unfold buffer_of. rewrite Hb. cbn.
      destruct (Nat.leb_spec (maxlen (local_buffer (self s))) 0); [lia | reflexivity].
Qed.

(** The replay never raises and only changes the content of the buffer. *)
Lemma retry_buffered_messages_ok (s : St) :
  exists s' delta,
    retry_buffered_messages s = (Ok tt, s') /\
    trace_of s' = trace_of s ++ delta /\
    quiet delta /\
    kept s s'.
Proof.
  rewrite retry_buffered_messages_eq.
  destruct (buffer_of s) as [|m0 l] eqn:Hbuf.
  - exists s, []. unfold trace_of. rewrite app_nil_r.
    repeat split; apply kept_refl.
  - match goal with |- context [retry_each _ ?s1] =>
      destruct (retry_each_spec (m0 :: l) s1)
        as (s' & delta & Hrun & Htr & [Hw Hd] & Hself & Hout) end.
    exists s'. eexists (_ :: delta). rewrite Hrun. split; [reflexivity|].
    split; [rewrite Htr; unfold trace_of; cbn; rewrite <- app_assoc; reflexivity|].
    split; [split; [exact Hw | exact Hd]|].
    cbn [self] in Hself, Hout. split; [exact Hself|].
    destruct Hout as [[_ Hb]|(pre & m & post & _ & _ & Hb)]; rewrite Hb; reflexivity.
Qed.

Lemma periodic_retry_ok (iteration : Z) (s : St) :
  exists s' delta,
    periodic_retry iteration s = (Ok tt, s') /\
    trace_of s' = trace_of s ++ delta /\
    quiet delta /\
    kept s s'.
Proof.
  unfold periodic_retry. destruct (iteration mod 10 =? 0).
  - apply retry_buffered_messages_ok.
  - exists s, []. unfold trace_of, ret. rewrite app_nil_r.
    repeat split; apply kept_refl.
Qed.

Lemma generate_and_send_eq (iteration : Z) (s : St) :
  generate_and_send iteration s =
  match generate_gateway_payload (with_events s [Log INFO (MsgIteration iteration)]) with
  | (Raise e, s1) => (Raise e, s1)
  | (Ok p, s1) =>
      match p_sensors p with
      | [] => (Ok tt, with_events s1 [Log INFO MsgNoSensors])
      | _ :: _ =>
          (Ok tt,
           snd (send_to_kafka p
                  (with_events s1
                     [Log INFO (MsgPayloadGenerated (List.length (p_sensors p)))])))
      end
  end.
Proof.
  unfold generate_and_send. unfold bind at 1.
  change (lift (logger INFO (MsgIteration iteration)) s)
    with (@Ok unit tt, with_events s [Log INFO (MsgIteration iteration)]).
  cbv iota beta. unfold bind at 1.
  destruct (generate_gateway_payload _) as [[p|e] s1]; [|reflexivity].
  destruct (p_sensors p) as [|r rs] eqn:Hs; [reflexivity|].
  unfold bind at 1.
  change (lift (logger INFO (MsgPayloadGenerated (List.length (r :: rs)))) s1)
    with (@Ok unit tt, with_events s1 [Log INFO (MsgPayloadGenerated (List.length (r :: rs)))]).
  cbv iota beta. unfold bind, ret.
  rewrite send_to_kafka_eq. cbv zeta.
  destruct (fst (producer_send _ _ _ _)); reflexivity.
Qed.

Lemma with_events_kept (s : St) evs : kept s (with_events s evs).
Proof. apply kept_same_self. reflexivity. Qed.

Lemma generate_and_send_kept (iteration : Z) (s : St) :
  kept s (snd (generate_and_send iteration s)).
Proof.
  rewrite generate_and_send_eq.
  destruct (generate_gateway_payload_eq (with_events s [Log INFO (MsgIteration iteration)]))
    as (r & w & ->).
  destruct r as [p|e]; [|apply kept_same_self; reflexivity].
  destruct (p_sensors p); cbn [snd].
  - apply kept_same_self. reflexivity.
  - eapply kept_trans; [|apply send_to_kafka_kept]. apply kept_same_self. reflexivity.
Qed.

(** One pass of the loop: when the first half raises, the handler logs the
    error and waits; otherwise the periodic replay runs and the pass ends
    with the wait. *)
Lemma iteration_step_eq (iteration : Z) (s : St) :
  iteration_step iteration s =
  match generate_and_send iteration s with
  | (Ok _, s1) => wait_interval (snd (periodic_retry iteration s1))
  | (Raise _, s1) => wait_interval (with_events s1 [Log ERROR MsgLoopError])
  end.
Proof.
  unfold iteration_step, iteration_body, try_except. unfold bind at 1.
  destruct (generate_and_send iteration s) as [[u|e] s1].
  - unfold bind at 1.
    destruct (periodic_retry_ok iteration s1) as (s2 & delta & -> & _).
    cbn [snd]. rewrite wait_interval_eq. reflexivity.
  - unfold bind at 1.
    change (lift (logger ERROR MsgLoopError) s1)
      with (@Ok unit tt, with_events s1 [Log ERROR MsgLoopError]).
    reflexivity.
Qed.

Lemma generate_and_send_raise (iteration : Z) (s s1 : St) (e : exn) :
  generate_and_send iteration s = (Raise e, s1) ->
  self s1 = self s /\ trace_of s1 = trace_of s ++ [Log INFO (MsgIteration iteration)].
Proof.
  rewrite generate_and_send_eq.
  destruct (generate_gateway_payload_eq (with_events s [Log INFO (MsgIteration iteration)]))
    as (r & w & ->).
  destruct r as [p|e']; [destruct (p_sensors p); discriminate|].
  intros [= _ <-]. split; reflexivity.
Qed.

End GatewayFacts.

(** ** The periodic replay of the buffer *)

Section Replay.
Context {E : External}.

(** C2, as the code has it.  On a pass of the loop whose number is a
    multiple of 10 and whose first half (payload generation and publish)
    returned, the whole buffer is taken out as one batch and re-published in
    its order up to the first failure: either all of it is delivered and the
    buffer is empty, or the failing message alone is back in the buffer and
    the messages after it are neither published nor buffered.  The pass
    ends with the wait and the buffer stays as the replay left it.  When
    the first half raised, the pass publishes nothing more and leaves the
    buffer as it was. *)
Theorem retry_on_tenth_iteration (iteration : Z) (s s1 : St) :
  bounded_buffer s ->
  iteration mod 10 = 0 ->
  (generate_and_send iteration s = (Ok tt, s1) ->
   exists s2 delta,
     retry_buffered_messages s1 = (Ok tt, s2) /\
     trace_of s2 = trace_of s1 ++ delta /\
     drained (buffer_of s1) delta (buffer_of s2) /\
     iteration_step iteration s = wait_interval s2 /\
     buffer_of (snd (iteration_step iteration s)) = buffer_of s2) /\
  (forall e, generate_and_send iteration s = (Raise e, s1) ->
     buffer_of (snd (iteration_step iteration s)) = buffer_of s /\
     publishes (trace_of (snd (iteration_step iteration s))) = publishes (trace_of s)).
Proof.
  intros Hb Hten. split.
  - intros Hgen.
    pose proof (generate_and_send_kept iteration s) as [_ Hmax].
    rewrite Hgen in Hmax. cbn [snd] in Hmax.
    destruct (retry_buffered_messages_spec s1) as (s2 & delta & Hrun & Htr & _ & Hdr).
    { rewrite Hmax, Hb. unfold buffer_capacity. lia. }
    exists s2, delta. split; [exact Hrun|]. split; [exact Htr|]. split; [exact Hdr|].
    assert (Hstep : iteration_step iteration s = wait_interval s2).
    { rewrite iteration_step_eq, Hgen. unfold periodic_retry.
      rewrite (proj2 (Z.eqb_eq _ _) Hten), Hrun. reflexivity. }
    split; [exact Hstep|]. rewrite Hstep, wait_interval_eq. reflexivity.
  - intros e Hgen. rewrite iteration_step_eq, Hgen, wait_interval_eq. cbn [snd].
    destruct (generate_and_send_raise _ _ _ _ Hgen) as [Hself Htr].
    split.
    + unfold buffer_of, with_events. cbn [self]. rewrite Hself. reflexivity.
    + unfold trace_of at 1. cbn [proc trace].
      change (trace_of (with_events s1 [Log ERROR MsgLoopError]))
        with (trace_of s1 ++ [Log ERROR MsgLoopError]).
      rewrite Htr, !publishes_app. cbn [publishes flat_map app].
      rewrite !app_nil_r. reflexivity.
Qed.

End Replay.

Lemma retry_on_tenth_iteration_witness :
  exists s2 delta,
    @retry_buffered_messages Scenario.sim
      (snd (@generate_and_send Scenario.sim 10 Scenario.before_tenth)) = (Ok tt, s2) /\
    trace_of s2 =
      trace_of (snd (@generate_and_send Scenario.sim 10 Scenario.before_tenth)) ++ delta /\
    drained (buffer_of (snd (@generate_and_send Scenario.sim 10 Scenario.before_tenth)))
      delta (buffer_of s2) /\
    @iteration_step Scenario.sim 10 Scenario.before_tenth = wait_interval s2 /\
    buffer_of (snd (@iteration_step Scenario.sim 10 Scenario.before_tenth)) = buffer_of s2.
Proof.
  apply (proj1 (@retry_on_tenth_iteration Scenario.sim 10 Scenario.before_tenth
                  (snd (@generate_and_send Scenario.sim 10 Scenario.before_tenth))
                  ltac:(vm_compute; reflexivity) ltac:(reflexivity))).
  vm_compute. reflexivity.
Defined.

(** The batch of [Scenario.before_tenth] holds three payloads; the replay
    delivers the first, fails on the second and keeps it, and the third is
    gone. *)
Example replay_loses_the_rest :
  map p_last_updated (buffer_of Scenario.before_tenth) = ["t0Z"; "t1Z"; "t2Z"] /\
  map p_last_updated
    (buffer_of (snd (@iteration_step Scenario.sim 10 Scenario.before_tenth))) = ["t1Z"] /\
  map (fun x => (p_last_updated (fst x), snd x))
    (skipn 9 (publishes (trace_of (snd (@iteration_step Scenario.sim 10 Scenario.before_tenth)))))
  = [("t9Z", true); ("t0Z", true); ("t1Z", false)].
Proof. vm_compute. repeat split. Qed.

(** A tenth pass whose payload generation raises: the buffer is not empty,
    nothing is taken out of it and nothing is published. *)
Lemma faulty_tenth_iteration_skips_replay :
  10 mod 10 = 0 /\
  List.length (buffer_of Scenario.before_faulty_tenth) = 1%nat /\
  buffer_of (snd (@iteration_step Scenario.sim 10 Scenario.before_faulty_tenth))
  = buffer_of Scenario.before_faulty_tenth /\
  publishes (trace_of (snd (@iteration_step Scenario.sim 10 Scenario.before_faulty_tenth)))
  = publishes (trace_of Scenario.before_faulty_tenth).
Proof. vm_compute. repeat split. Qed.

(** ** What the partition function does with parameters out of range *)

(** C3, as the code has it.  The function validates nothing.  With
    [total_instances = 0] the division raises [ZeroDivisionError] and no
    range is produced; with any other [total_instances], negative ones
    included, and any [instance_id], inside [[0, total_instances)] or not,
    it returns the range that the formula gives. *)
Theorem partition_unchecked (total_edges instance_id total_instances : Z) :
  Partition.calculate_instance_edge_range total_edges instance_id 0
  = Raise ZeroDivisionError /\
  (total_instances <> 0 ->
   Partition.calculate_instance_edge_range total_edges instance_id total_instances
   = Ok (PartitionSpec.start_of total_edges total_instances instance_id,
         PartitionSpec.start_of total_edges total_instances instance_id
         + PartitionSpec.size_of total_edges total_instances instance_id - 1)).
Proof.
  split; [reflexivity|]. apply PartitionFacts.calculate_ok.
Qed.

Lemma partition_unchecked_witness :
  Partition.calculate_instance_edge_range 10 7 4
  = Ok (PartitionSpec.start_of 10 4 7,
        PartitionSpec.start_of 10 4 7 + PartitionSpec.size_of 10 4 7 - 1).
Proof.
  apply (proj2 (partition_unchecked 10 7 4)). lia.
Defined.

(** An instance id beyond the instance count, a negative one, and a
    negative instance count all get a range. *)
Lemma partition_accepts_bad_parameters :
  ~ (0 <= 7 < 4) /\
  Partition.calculate_instance_edge_range 10 7 4 = Ok (16, 17) /\
  ~ (0 <= -1 < 4) /\
  Partition.calculate_instance_edge_range 10 (-1) 4 = Ok (-3, -1) /\
  -2 <= 0 /\
  Partition.calculate_instance_edge_range 10 0 (-2) = Ok (0, -6).
Proof. repeat split; try reflexivity; lia. Qed.

(** ** District lookup and gateway creation *)

Section Districts.
Context {E : External}.

Lemma find_district_scan_none (districts : list district) (edge_index : Z) :
  find_district_scan districts edge_index = None <->
  forall d, In d districts -> district_contains edge_index d = false.
Proof.
  induction districts as [|d ds IH]; cbn.
  - split; [intros _ d []|reflexivity].
  - destruct (district_contains edge_index d) eqn:Hd.
    + split; [discriminate|]. intros H. specialize (H d (or_introl eq_refl)). congruence.
    + rewrite IH. split.
      * intros H d' [<-|Hin]; auto.
      * intros H d' Hin. apply H. right. exact Hin.
Qed.

Lemma find_district_scan_first (pre post : list district) (d : district) (edge_index : Z) :
  (forall d', In d' pre -> district_contains edge_index d' = false) ->
  district_contains edge_index d = true ->
  find_district_scan (pre ++ d :: post) edge_index = Some d.
Proof.
  intros Hpre Hd. induction pre as [|d' pre IH]; cbn.
  - rewrite Hd. reflexivity.
  - rewrite (Hpre d' (or_introl eq_refl)). apply IH.
    intros d'' Hin. apply Hpre. right. exact Hin.
Qed.

(** C7.  A district contains an index when the index lies between the
    configured start and end of its edge range, both included, a missing
    bound or a missing range counting as 0.  The lookup returns the first
    district of the list that contains the index; when none does and the
    list has a first district, it returns that one. *)
Theorem find_district_first_match_or_first (districts : list district) (edge_index : Z) :
  (forall id range center other,
     district_contains edge_index
       {| d_district_id := id; d_edge_range := range;
          d_center := center; d_other := other |} = true <->
     match range with
     | Some {| er_start := Some a; er_end := Some b |} => a <= edge_index <= b
     | Some {| er_start := Some a; er_end := None |} => a <= edge_index <= 0
     | Some {| er_start := None; er_end := Some b |} => 0 <= edge_index <= b
     | Some {| er_start := None; er_end := None |} => edge_index = 0
     | None => edge_index = 0
     end) /\
  (forall pre d post,
     districts = pre ++ d :: post ->
     (forall d', In d' pre -> district_contains edge_index d' = false) ->
     district_contains edge_index d = true ->
     find_district_for_edge districts edge_index = Some d) /\
  (forall d0 rest,
     districts = d0 :: rest ->
     (forall d, In d districts -> district_contains edge_index d = false) ->
     find_district_for_edge districts edge_index = Some d0).
Proof.
  split; [|split].
  - intros id range center other.
    unfold district_contains, district_start, district_end. cbn [d_edge_range].
    rewrite andb_true_iff, !Z.leb_le.
    destruct range as [[[a|] [b|]]|]; cbn [er_start er_end]; lia.
  - intros pre d post -> Hpre Hd. unfold find_district_for_edge.
    rewrite (find_district_scan_first pre post d edge_index Hpre Hd). reflexivity.
  - intros d0 rest -> Hnone. unfold find_district_for_edge.
    rewrite (proj2 (find_district_scan_none _ _) Hnone). reflexivity.
Qed.

End Districts.

(** Index 3 lies in the range 0..9 of the second district and below the
    range 5..20 of the first; index 12 lies in both 5..20 and 10..30 and the
    earlier wins; index 50 lies in no range and gets the first district. *)
Lemma find_district_witness :
  find_district_for_edge [Scenario.suburb; Scenario.centre; Scenario.hills] 3
  = Some Scenario.centre /\
  find_district_for_edge [Scenario.centre; Scenario.suburb; Scenario.hills] 12
  = Some Scenario.suburb /\
  find_district_for_edge [Scenario.centre; Scenario.suburb; Scenario.hills] 50
  = Some Scenario.centre.
Proof.
  assert (Hin : forall i id range center other,
            district_contains i
              {| d_district_id := id; d_edge_range := range;
                 d_center := center; d_other := other |} = true <->
            match range with
            | Some {| er_start := Some a; er_end := Some b |} => a <= i <= b
            | Some {| er_start := Some a; er_end := None |} => a <= i <= 0
            | Some {| er_start := None; er_end := Some b |} => 0 <= i <= b
            | Some {| er_start := None; er_end := None |} => i = 0
            | None => i = 0
            end).
  { intros i. exact (proj1 (find_district_first_match_or_first [] i)). }
  assert (Hout : forall i d, ~ district_contains i d = true ->
                             district_contains i d = false).
  { intros i d H. destruct (district_contains i d); [contradiction H; reflexivity | reflexivity]. }
  split; [|split].
  - apply (proj1 (proj2 (find_district_first_match_or_first
                           [Scenario.suburb; Scenario.centre; Scenario.hills] 3))
             [Scenario.suburb] Scenario.centre [Scenario.hills]).
    + reflexivity.
    + intros d' [<-|[]]. apply Hout. unfold Scenario.suburb. rewrite Hin. lia.
    + unfold Scenario.centre. rewrite Hin. lia.
  - apply (proj1 (proj2 (find_district_first_match_or_first
                           [Scenario.centre; Scenario.suburb; Scenario.hills] 12))
             [Scenario.centre] Scenario.suburb [Scenario.hills]).
    + reflexivity.
    + intros d' [<-|[]]. apply Hout. unfold Scenario.centre. rewrite Hin. lia.
    + unfold Scenario.suburb. rewrite Hin. lia.
  - apply (proj2 (proj2 (find_district_first_match_or_first
                           [Scenario.centre; Scenario.suburb; Scenario.hills] 50))
             Scenario.centre [Scenario.suburb; Scenario.hills]).
    + reflexivity.
    + intros d [<-|[<-|[<-|[]]]]; apply Hout;
        [unfold Scenario.centre | unfold Scenario.suburb | unfold Scenario.hills];
        rewrite Hin; lia.
Defined.

Example edge_and_gateway_ids :
  generate_edge_id 42 = "E-00042" /\
  generate_edge_id 3458 = "E-03458" /\
  generate_gateway_id (generate_edge_id 0) = "GW-E-00000".
Proof. repeat split. Qed.

(** Three edges, one instance, two sensors of one kind: three gateways in
    the district that owns their edges, the last one by the fallback. *)
Example three_gateways :
  match @_initialize_edges Scenario.sim 8 10 [Scenario.centre] [("camera", 2)]
          (Scenario.start_world [] [] 5) with
  | (Ok gs, _) =>
      map (fun g => (gateway_id g, district_id g,
                     map sensor_id (dict_get_default (sensors_config g) "camera" []))) gs
  | (Raise _, _) => []
  end
  = [("GW-E-00008", "D1", ["camera-E-00008-a"; "camera-E-00008-b"]);
     ("GW-E-00009", "D1", ["camera-E-00009-a"; "camera-E-00009-b"]);
     ("GW-E-00010", "D1", ["camera-E-00010-a"; "camera-E-00010-b"])].
Proof. vm_compute. reflexivity. Qed.

Section NoDistricts.
Context {E : External}.

Lemma initialize_edges_from_no_district (sensors_per_gateway : dict Z) (indices : list Z) :
  forall (edge_managers : list EdgeManager) (p : Proc),
    initialize_edges_from edge_managers [] sensors_per_gateway indices p
    = (Ok edge_managers, p).
Proof.
  induction indices as [|i rest IH]; intros gs p; [reflexivity|].
  cbn [initialize_edges_from]. unfold bind at 1. cbn. apply IH.
Qed.

(** C10.  With an empty district list the lookup returns [None] for every
    edge index, and [_initialize_edges] returns without raising, with no
    gateway at all, whatever the range: the world is untouched and the only
    thing logged is the closing count of zero managers. *)
Theorem no_districts_no_gateways
    (edge_start edge_end : Z) (sensors_per_gateway : dict Z) (p : Proc) :
  (forall edge_index, find_district_for_edge [] edge_index = None) /\
  _initialize_edges edge_start edge_end [] sensors_per_gateway p
  = (Ok [], {| world := world p;
               trace := trace p ++ [Log INFO (MsgInitializedEdges 0)] |}).
Proof.
  split; [reflexivity|].
  unfold _initialize_edges. unfold bind at 1.
  rewrite initialize_edges_from_no_district. reflexivity.
Qed.

End NoDistricts.

(** ** The bounded buffer *)

Section Deque.
Context {A : Type}.

Lemma deque_append_bounded (d : deque A) (x : A) :
  (deque_len d <= maxlen d)%nat ->
  (deque_len (deque_append d x) <= maxlen d)%nat.
Proof.
  unfold deque_len, deque_append. cbn [items]. intros H.
  destruct (Nat.ltb_spec (maxlen d) (List.length (items d ++ [x]))) as [Hfull|Hroom].
  - destruct (items d ++ [x]) as [|y l] eqn:Hl; cbn [tl List.length].
    + lia.
    + apply (f_equal (@List.length A)) in Hl. rewrite length_app in Hl. cbn in Hl. lia.
  - exact Hroom.
Qed.

(** A full deque drops its oldest item and takes the new one. *)
Lemma deque_append_full (d : deque A) (x : A) :
  deque_len d = maxlen d -> (0 < maxlen d)%nat ->
  items (deque_append d x) = tl (items d) ++ [x].
Proof.
  unfold deque_len, deque_append. cbn [items]. intros Hlen Hpos.
  rewrite length_app. cbn [List.length].
  destruct (Nat.ltb_spec (maxlen d) (List.length (items d) + 1)); [|lia].
  destruct (items d) as [|y l]; [cbn in Hlen; lia | reflexivity].
Qed.

Lemma deque_append_room (d : deque A) (x : A) :
  (deque_len d < maxlen d)%nat ->
  items (deque_append d x) = items d ++ [x].
Proof.
  unfold deque_len, deque_append. cbn [items]. intros Hlen.
  rewrite length_app. cbn [List.length].
  destruct (Nat.ltb_spec (maxlen d) (List.length (items d) + 1)); [lia | reflexivity].
Qed.

(** Appending keeps the newest [maxlen] items of what was offered. *)
Lemma deque_append_skipn (d : deque A) (x : A) :
  (deque_len d <= maxlen d)%nat ->
  items (deque_append d x)
  = skipn (List.length (items d ++ [x]) - maxlen d) (items d ++ [x]).
Proof.
  intros Hlen. unfold deque_len in Hlen.
  destruct (Nat.eq_dec (List.length (items d)) (maxlen d)) as [Hfull|Hroom].
  - destruct (Nat.eq_dec (maxlen d) 0) as [H0|Hpos].
    + unfold deque_append. cbn [items]. rewrite length_app. cbn [List.length].
      destruct (items d) as [|y l]; [|cbn in Hfull; lia].
      rewrite H0. reflexivity.
    + rewrite deque_append_full by (unfold deque_len; lia).
      rewrite length_app. cbn [List.length].
      replace (List.length (items d) + 1 - maxlen d)%nat with 1%nat by lia.
      destruct (items d); [cbn in Hfull; lia | reflexivity].
  - rewrite deque_append_room by (unfold deque_len; lia).
    rewrite length_app. cbn [List.length].
    replace (List.length (items d) + 1 - maxlen d)%nat with 0%nat by lia.
    reflexivity.
Qed.

Lemma fold_append_maxlen (xs : list A) :
  forall d : deque A, maxlen (fold_left deque_append xs d) = maxlen d.
Proof.
  induction xs as [|x xs IH]; intros d; [reflexivity|]. cbn. rewrite IH. reflexivity.
Qed.

(** So does a run of appends. *)
Lemma fold_append_skipn (xs : list A) :
  forall d : deque A,
    (deque_len d <= maxlen d)%nat ->
    items (fold_left deque_append xs d)
    = skipn (List.length (items d ++ xs) - maxlen d) (items d ++ xs).
Proof.
  induction xs as [|x xs IH]; intros d Hlen.
  - cbn [fold_left]. rewrite app_nil_r. unfold deque_len in Hlen.
    replace (List.length (items d) - maxlen d)%nat with 0%nat by lia. reflexivity.
  - cbn [fold_left].
    pose proof (deque_append_bounded d x Hlen) as Hlen'.
    rewrite IH by exact Hlen'. cbn [deque_append maxlen] in *.
    change (maxlen (deque_append d x)) with (maxlen d).
    rewrite (deque_append_skipn d x Hlen).
    set (L := items d ++ [x]). set (k := (List.length L - maxlen d)%nat).
    assert (Hk : (k <= List.length L)%nat) by (subst k; lia).
    assert (Happ : skipn k L ++ xs = skipn k (L ++ xs)).
    { rewrite skipn_app. replace (k - List.length L)%nat with 0%nat by lia. reflexivity. }
    rewrite Happ, skipn_skipn. subst L.
    rewrite <- app_assoc. cbn [app]. f_equal.
    rewrite !length_skipn, !length_app. cbn [List.length]. subst k.
    rewrite !length_app. cbn [List.length]. lia.
Qed.

End Deque.

Section BufferInvariant.
Context {E : External}.

Lemma buffer_capacity_pos : (1 <= buffer_capacity)%nat.
Proof. apply Nat.leb_le. reflexivity. Qed.

Lemma send_to_kafka_buffer_ok (data : payload reading) (s : St) :
  buffer_ok s -> buffer_ok (snd (send_to_kafka data s)).
Proof.
  unfold buffer_ok, bounded_buffer, buffer_of. intros [Hmax Hlen].
  rewrite send_to_kafka_eq. cbv zeta.
  destruct (fst (producer_send _ _ data (world_of s))); cbn [snd self].
  - split; assumption.
  - cbn [set_local_buffer local_buffer]. split; [exact Hmax|].
    rewrite <- Hmax. apply deque_append_bounded. unfold deque_len. rewrite Hmax. exact Hlen.
Qed.

Lemma retry_buffered_messages_buffer_ok (s : St) :
  buffer_ok s -> buffer_ok (snd (retry_buffered_messages s)).
Proof.
  intros [Hmax Hlen]. pose proof buffer_capacity_pos as Hpos.
  destruct (retry_buffered_messages_spec s) as (s' & delta & -> & _ & [_ Hkept] & Hdr).
  { rewrite Hmax. exact Hpos. }
  cbn [snd]. split; [unfold bounded_buffer; congruence|].
  destruct Hdr as [[_ ->]|(pre & m & post & _ & _ & ->)]; cbn [List.length]; lia.
Qed.

Lemma generate_and_send_buffer_ok (iteration : Z) (s : St) :
  buffer_ok s -> buffer_ok (snd (generate_and_send iteration s)).
Proof.
  intros Hok. rewrite generate_and_send_eq.
  destruct (generate_gateway_payload_eq (with_events s [Log INFO (MsgIteration iteration)]))
    as (r & w & ->).
  destruct r as [p|e]; [|exact Hok].
  destruct (p_sensors p); cbn [snd]; [exact Hok|].
  apply send_to_kafka_buffer_ok. exact Hok.
Qed.

Lemma iteration_step_ok (iteration : Z) (s : St) :
  fst (iteration_step iteration s) = Ok tt.
Proof.
  rewrite iteration_step_eq.
  destruct (generate_and_send iteration s) as [[u|e] s1];
    rewrite wait_interval_eq; reflexivity.
Qed.

Lemma iteration_step_buffer_ok (iteration : Z) (s : St) :
  buffer_ok s -> buffer_ok (snd (iteration_step iteration s)).
Proof.
  intros Hok. rewrite iteration_step_eq.
  pose proof (generate_and_send_buffer_ok iteration s Hok) as H1.
  destruct (generate_and_send iteration s) as [[u|e] s1]; cbn [snd] in H1;
    rewrite wait_interval_eq; cbn [snd].
  - unfold periodic_retry. destruct (iteration mod 10 =? 0).
    + apply (retry_buffered_messages_buffer_ok s1 H1).
    + exact H1.
  - exact H1.
Qed.

(** The loop of [run], one pass at a time. *)
Lemma run_loop_S (fuel : nat) (iteration : Z) (s : St) :
  run_loop (S fuel) iteration s =
  if stop_is_set (world_of s) then (Ok LoopExited, s)
  else run_loop fuel (iteration + 1) (snd (iteration_step (iteration + 1) s)).
Proof.
  cbn [run_loop]. unfold bind at 1. destruct s as [[w tr] g].
  change (lift (gets (fun p => stop_is_set (world p))) {| proc := {| world := w; trace := tr |}; self := g |})
    with (Ok (stop_is_set w), {| proc := {| world := w; trace := tr |}; self := g |}).
  cbv iota beta. change (world_of _) with w.
  destruct (stop_is_set w); [reflexivity|]. set (s := Build_St _ _).
  unfold bind at 1.
  pose proof (iteration_step_ok (iteration + 1) s) as Hok.
  destruct (iteration_step (iteration + 1) s) as [r s']. cbn in Hok. subst r.
  reflexivity.
Qed.

Lemma after_iterations_buffer_ok (k : nat) :
  forall (iteration : Z) (s : St),
    buffer_ok s -> buffer_ok (after_iterations k iteration s).
Proof.
  induction k as [|k IH]; intros iteration s Hok; [exact Hok|].
  cbn [after_iterations]. apply IH, iteration_step_buffer_ok, Hok.
Qed.

Lemma run_loop_buffer_ok (fuel : nat) :
  forall (iteration : Z) (s : St),
    buffer_ok s -> buffer_ok (snd (run_loop fuel iteration s)).
Proof.
  induction fuel as [|fuel IH]; intros iteration s Hok; [exact Hok|].
  rewrite run_loop_S. destruct (stop_is_set (world_of s)); [exact Hok|].
  apply IH, iteration_step_buffer_ok, Hok.
Qed.

(** Calls of [send_to_kafka] that all fail append their payloads, in
    order. *)
Lemma send_each_all_fail (payloads : list (payload reading)) :
  forall s s' : St,
    send_each payloads s = (Ok (repeat false (List.length payloads)), s') ->
    local_buffer (self s') = fold_left deque_append payloads (local_buffer (self s)).
Proof.
  induction payloads as [|data rest IH]; intros s s'.
  - cbn. intros [= <-]. reflexivity.
  - cbn [send_each List.length repeat fold_left]. unfold bind at 1.
    rewrite send_to_kafka_eq. cbv zeta.
    destruct (fst (producer_send _ _ data (world_of s))).
    + unfold bind at 1. destruct (send_each rest _) as [[l|err] s2]; cbn; discriminate.
    + unfold bind at 1.
      destruct (send_each rest _) as [[l|err] s2] eqn:Hrest; cbn; [|discriminate].
      intros [= -> <-]. apply IH in Hrest. rewrite Hrest. reflexivity.
Qed.

End BufferInvariant.

Section BufferBound.
Context {E : External}.

(** What [__init__] returns: an empty buffer of capacity 1000, the interval
    drawn by its one call of [random.uniform], and nothing else drawn. *)
Lemma EdgeManager_init_ok (district_id_ : string) (cfg : edge_config)
    (topics : dict string) (p p' : Proc) (g : EdgeManager) :
  EdgeManager_init district_id_ cfg topics p = (Ok g, p') ->
  local_buffer g = deque_new 1000 /\
  (exists w, sampling_interval g
             = ((5 # 2) + ((9 # 2) - (5 # 2)) * fst (random_random w))%Q) /\
  exists speed weather camera,
    trace p' = trace p ++ [RandomUniform (5 # 2) (9 # 2) (sampling_interval g);
                           Log INFO (MsgGatewayInitialized speed weather camera)].
Proof.
  unfold EdgeManager_init, require, random_uniform.
  unfold bind, ret, raise, logger, emit, modify, call.
  destruct (ec_edge_id cfg) as [edge_id|]; [|discriminate].
  destruct (ec_name cfg) as [name|]; [|discriminate].
  destruct (ec_location cfg) as [loc|]; [|discriminate].
  cbn.
  destruct (random_random _) as [r w] eqn:Hr. cbn.
  intros [= <- <-]. cbn. split; [reflexivity|]. split.
  - eexists. rewrite Hr. reflexivity.
  - eexists _, _, _. rewrite <- app_assoc. reflexivity.
Qed.

(** C4, as the code has it.  From a state whose buffer is within its
    capacity, [send_to_kafka], the replay and any number of passes of the
    loop leave it within its capacity, and [__init__] starts from such a
    state with an empty buffer.  A failed publish on a full buffer drops
    the oldest payload and takes the new one.  Publish failures in a row
    with no replay in between leave the newest payloads, as many as the
    capacity allows: from an empty buffer, [min N C] of them. *)
Theorem buffer_bounded_newest_kept (s : St) :
  buffer_ok s ->
  (forall data, buffer_ok (snd (send_to_kafka data s))) /\
  buffer_ok (snd (retry_buffered_messages s)) /\
  (forall fuel iteration, buffer_ok (snd (run_loop fuel iteration s))) /\
  (forall district_id_ cfg topics p p' g,
     EdgeManager_init district_id_ cfg topics p = (Ok g, p') ->
     buffer_ok {| proc := p'; self := g |} /\ local_buffer g = deque_new buffer_capacity) /\
  (forall data s',
     List.length (buffer_of s) = buffer_capacity ->
     send_to_kafka data s = (Ok false, s') ->
     buffer_of s' = tl (buffer_of s) ++ [data]) /\
  (forall payloads s',
     send_each payloads s = (Ok (repeat false (List.length payloads)), s') ->
     buffer_of s'
     = skipn (List.length (buffer_of s ++ payloads) - buffer_capacity)
             (buffer_of s ++ payloads) /\
     (buffer_of s = [] ->
      List.length (buffer_of s') = Nat.min (List.length payloads) buffer_capacity)).
Proof.
  intros Hok. pose proof Hok as [Hmax Hlen].
  unfold bounded_buffer in Hmax. unfold buffer_of in Hlen.
  split; [intros data; apply send_to_kafka_buffer_ok, Hok|].
  split; [apply retry_buffered_messages_buffer_ok, Hok|].
  split; [intros fuel iteration; apply run_loop_buffer_ok, Hok|].
  split; [|split].
  - intros d cfg topics p p' g Hinit.
    destruct (EdgeManager_init_ok _ _ _ _ _ _ Hinit) as (Hbuf & _).
    split; [|exact Hbuf]. unfold buffer_ok, bounded_buffer, buffer_of. cbn [self].
    rewrite Hbuf. split; [reflexivity|]. cbn [deque_new items List.length]. lia.
  - intros data s' Hfull. rewrite send_to_kafka_eq. cbv zeta.
    destruct (fst (producer_send _ _ data (world_of s))); [discriminate|].
    intros [= <-]. unfold buffer_of in *. cbn [self set_local_buffer local_buffer].
    apply deque_append_full; unfold deque_len; rewrite Hmax; [exact Hfull|].
    apply buffer_capacity_pos.
  - intros payloads s' Hsend. apply send_each_all_fail in Hsend.
    assert (Heq : buffer_of s'
              = skipn (List.length (buffer_of s ++ payloads) - buffer_capacity)
                      (buffer_of s ++ payloads)).
    { unfold buffer_of. rewrite Hsend, fold_append_skipn, Hmax; [reflexivity|].
      unfold deque_len. rewrite Hmax. exact Hlen. }
    split; [exact Heq|]. intros Hempty. rewrite Heq, Hempty. cbn [app].
    rewrite length_skipn. lia.
Qed.

End BufferBound.

Lemma buffer_bounded_newest_kept_witness :
  buffer_ok (snd (@retry_buffered_messages Scenario.sim Scenario.before_tenth)) /\
  buffer_ok (snd (@run_loop Scenario.sim 3 9 Scenario.before_tenth)) /\
  List.length
    (buffer_of (snd (@send_each Scenario.sim (buffer_of Scenario.before_tenth)
                       (Scenario.gateway 1 [true; true; true] [] 100))))
  = Nat.min 3 buffer_capacity.
Proof.
  assert (Hok : @buffer_ok Scenario.sim Scenario.before_tenth).
  { split; [vm_compute; reflexivity | apply Nat.leb_le; vm_compute; reflexivity]. }
  destruct (@buffer_bounded_newest_kept Scenario.sim Scenario.before_tenth Hok)
    as (_ & Hretry & Hrun & _).
  split; [exact Hretry|]. split; [apply Hrun|].
  assert (Hfresh : @buffer_ok Scenario.sim (Scenario.gateway 1 [true; true; true] [] 100)).
  { split; [vm_compute; reflexivity | apply Nat.leb_le; vm_compute; reflexivity]. }
  destruct (@buffer_bounded_newest_kept Scenario.sim _ Hfresh)
    as (_ & _ & _ & _ & _ & Hsends).
  apply (Hsends (buffer_of Scenario.before_tenth)
                (snd (@send_each Scenario.sim (buffer_of Scenario.before_tenth)
                        (Scenario.gateway 1 [true; true; true] [] 100)))).
  - vm_compute. reflexivity.
  - vm_compute. reflexivity.
Defined.

(** Ten passes with every producer call failing: eleven failures in a row,
    and the buffer holds one payload, the oldest one. *)
Lemma outage_keeps_one_payload :
  map snd (publishes (trace_of Scenario.after_outage)) = repeat false 11 /\
  map p_last_updated (buffer_of Scenario.after_outage) = ["t0Z"] /\
  List.length (buffer_of Scenario.after_outage) <> Nat.min 11 buffer_capacity /\
  List.length (buffer_of Scenario.after_outage) <> Nat.min 10 buffer_capacity.
Proof. vm_compute. repeat split; discriminate. Qed.

(** ** The passes of the loop *)

Section Passes.
Context {E : External}.

Lemma wait_timeouts_app (t1 t2 : list (event reading)) :
  wait_timeouts (t1 ++ t2) = wait_timeouts t1 ++ wait_timeouts t2.
Proof. apply flat_map_app. Qed.

Lemma uniform_draws_app (t1 t2 : list (event reading)) :
  uniform_draws (t1 ++ t2) = uniform_draws t1 ++ uniform_draws t2.
Proof. apply flat_map_app. Qed.


Lemma quiet_app (t1 t2 : list (event reading)) :
  quiet t1 -> quiet t2 -> quiet (t1 ++ t2).
Proof.
  intros [W1 D1] [W2 D2]. split.
  - rewrite wait_timeouts_app, W1, W2. reflexivity.
  - rewrite uniform_draws_app, D1, D2. reflexivity.
Qed.

Lemma kept_interval (s s' : St) :
  kept s s' -> sampling_interval (self s') = sampling_interval (self s).
Proof. intros [-> _]. reflexivity. Qed.

Lemma send_to_kafka_trace (data : payload reading) (s : St) :
  exists delta,
    trace_of (snd (send_to_kafka data s)) = trace_of s ++ delta /\ quiet delta.
Proof.
  rewrite send_to_kafka_eq. cbv zeta.
  destruct (fst (producer_send _ _ data (world_of s)));
    eexists; (split; [reflexivity | split; reflexivity]).
Qed.

(** The first half of a pass neither waits nor draws, whether it returns
    or raises, and leaves the gateway as it is but for the buffer. *)
Lemma generate_and_send_summary (iteration : Z) (s : St) :
  exists delta,
    trace_of (snd (generate_and_send iteration s)) = trace_of s ++ delta /\
    quiet delta /\
    kept s (snd (generate_and_send iteration s)).
Proof.
  pose proof (generate_and_send_kept iteration s) as Hkept.
  rewrite generate_and_send_eq in *.
  destruct (generate_gateway_payload_eq (with_events s [Log INFO (MsgIteration iteration)]))
    as (r & w & Hgen).
  rewrite Hgen in *.
  destruct r as [p|e].
  - destruct (p_sensors p) as [|x xs]; cbn [snd] in *.
    + eexists. split; [unfold trace_of, with_events; cbn; rewrite <- app_assoc; reflexivity|].
      split; [split; reflexivity | exact Hkept].
    + match goal with |- context [send_to_kafka p ?s1] =>
        destruct (send_to_kafka_trace p s1) as (delta & Htr & Hq) end.
      eexists. split; [rewrite Htr; unfold trace_of, with_events; cbn;
                       rewrite <- !app_assoc; reflexivity|].
      split; [|exact Hkept].
      apply (quiet_app [_; _] delta); [split; reflexivity | exact Hq].
  - cbn [snd] in *. eexists. split; [reflexivity|].
    split; [split; reflexivity | exact Hkept].
Qed.

(** A pass, faulty or not: a stretch without wait or draw, then one wait
    for the gateway's interval; the gateway is as before but for the
    buffer. *)
Lemma iteration_step_summary (iteration : Z) (s : St) :
  exists delta,
    trace_of (snd (iteration_step iteration s))
    = trace_of s ++ delta ++ [EventWait (sampling_interval (self s))] /\
    quiet delta /\
    kept s (snd (iteration_step iteration s)).
Proof.
  rewrite iteration_step_eq.
  destruct (generate_and_send_summary iteration s) as (d1 & Htr1 & Hq1 & Hk1).
  destruct (generate_and_send iteration s) as [[u|e] s1]; cbn [snd] in *.
  - destruct (periodic_retry_ok iteration s1) as (s2 & d2 & Hrun & Htr2 & Hq2 & Hk2).
    rewrite Hrun. cbn [snd]. rewrite wait_interval_eq. cbn [snd].
    pose proof (kept_trans _ _ _ Hk1 Hk2) as Hk.
    exists (d1 ++ d2). split; [|split].
    + unfold trace_of at 1. cbn [proc trace].
      rewrite Htr2, Htr1, (kept_interval _ _ Hk), <- !app_assoc. reflexivity.
    + apply quiet_app; assumption.
    + eapply kept_trans; [exact Hk|]. apply kept_same_self. reflexivity.
  - rewrite wait_interval_eq. cbn [snd].
    exists (d1 ++ [Log ERROR MsgLoopError]). split; [|split].
    + unfold trace_of at 1. cbn [proc trace self with_events].
      change (trace_of (with_events s1 [Log ERROR MsgLoopError]))
        with (trace_of s1 ++ [Log ERROR MsgLoopError]).
      rewrite Htr1, (kept_interval _ _ Hk1), <- !app_assoc. reflexivity.
    + apply quiet_app; [exact Hq1 | split; reflexivity].
    + eapply kept_trans; [exact Hk1|]. apply kept_same_self. reflexivity.
Qed.

(** Any number of passes: the interval and the draws are as before, and
    every wait was for that interval. *)
Lemma after_iterations_summary (k : nat) :
  forall (iteration : Z) (s : St),
    kept s (after_iterations k iteration s) /\
    wait_timeouts (trace_of (after_iterations k iteration s))
    = wait_timeouts (trace_of s) ++ repeat (sampling_interval (self s)) k /\
    uniform_draws (trace_of (after_iterations k iteration s))
    = uniform_draws (trace_of s).
Proof.
  induction k as [|k IH]; intros iteration s.
  - cbn. rewrite app_nil_r. split; [apply kept_refl|]. split; reflexivity.
  - cbn [after_iterations repeat].
    destruct (iteration_step_summary (iteration + 1) s) as (delta & Htr & [Hw Hd] & Hk).
    destruct (IH (iteration + 1) (snd (iteration_step (iteration + 1) s)))
      as (Hk' & Hw' & Hd').
    split; [eapply kept_trans; eassumption|]. split.
    + rewrite Hw', Htr, (kept_interval _ _ Hk), !wait_timeouts_app, Hw.
      cbn. rewrite <- app_assoc. reflexivity.
    + rewrite Hd', Htr, !uniform_draws_app, Hd. cbn. rewrite app_nil_r. reflexivity.
Qed.

(** The loop runs passes until the stop event is seen at the top; when it
    is seen for the first time after [k] passes, [k + 1] checks of fuel are
    enough. *)
Lemma run_loop_exits (k : nat) :
  forall (fuel : nat) (iteration : Z) (s : St),
    (forall j, (j < k)%nat ->
       stop_is_set (world_of (after_iterations j iteration s)) = false) ->
    stop_is_set (world_of (after_iterations k iteration s)) = true ->
    (k < fuel)%nat ->
    run_loop fuel iteration s = (Ok LoopExited, after_iterations k iteration s).
Proof.
  induction k as [|k IH]; intros fuel iteration s Hnot Hset Hfuel;
    (destruct fuel as [|fuel]; [lia|]); rewrite run_loop_S.
  - cbn in Hset. rewrite Hset. reflexivity.
  - pose proof (Hnot 0%nat ltac:(lia)) as H0. cbn [after_iterations] in H0, Hset.
    rewrite H0. cbn [after_iterations].
    apply IH; [|exact Hset|lia].
    intros j Hj. apply (Hnot (S j)). lia.
Qed.

(** Without enough fuel the model stops after [fuel] passes. *)
Lemma run_loop_out_of_fuel (fuel : nat) :
  forall (iteration : Z) (s : St),
    (forall j, (j < fuel)%nat ->
       stop_is_set (world_of (after_iterations j iteration s)) = false) ->
    run_loop fuel iteration s = (Ok OutOfFuel, after_iterations fuel iteration s).
Proof.
  induction fuel as [|fuel IH]; intros iteration s Hnot; [reflexivity|].
  pose proof (Hnot 0%nat ltac:(lia)) as H0. cbn [after_iterations] in H0.
  rewrite run_loop_S, H0. cbn [after_iterations].
  apply IH. intros j Hj. apply (Hnot (S j)). lia.
Qed.

(** Whatever the fuel, the loop stops after some number of passes, and
    never by an exception. *)
Lemma run_loop_passes (fuel : nat) :
  forall (iteration : Z) (s : St),
    exists k status,
      (k <= fuel)%nat /\
      run_loop fuel iteration s = (Ok status, after_iterations k iteration s).
Proof.
  induction fuel as [|fuel IH]; intros iteration s.
  - exists 0%nat, OutOfFuel. split; [lia | reflexivity].
  - rewrite run_loop_S. destruct (stop_is_set (world_of s)).
    + exists 0%nat, LoopExited. split; [lia | reflexivity].
    + destruct (IH (iteration + 1) (snd (iteration_step (iteration + 1) s)))
        as (k & status & Hk & Hrun).
      exists (S k), status. split; [lia | exact Hrun].
Qed.

End Passes.

(** ** Shutdown *)

Section WorldInvariant.
Context {E : External}.
Variable P : World -> Prop.
Hypothesis HP : kept_by_collaborators P.

Lemma send_to_kafka_world (data : payload reading) (s : St) :
  P (world_of s) -> P (world_of (snd (send_to_kafka data s))).
Proof.
  intros H. rewrite send_to_kafka_eq. cbv zeta.
  destruct HP as (_ & Hsend & _).
  destruct (fst (producer_send _ _ data (world_of s))); apply Hsend, H.
Qed.

Lemma retry_each_world (msgs : list (payload reading)) :
  forall s : St, P (world_of s) -> P (world_of (snd (retry_each msgs s))).
Proof.
  induction msgs as [|m rest IH]; intros s H; [exact H|].
  cbn [retry_each]. unfold bind at 1.
  pose proof (send_to_kafka_world m s H) as Hm.
  destruct (send_to_kafka m s) as [[sent|e] s1]; cbn [snd] in *; [|exact Hm].
  destruct sent; cbn [negb]; [apply IH, Hm | exact Hm].
Qed.

Lemma periodic_retry_world (iteration : Z) (s : St) :
  P (world_of s) -> P (world_of (snd (periodic_retry iteration s))).
Proof.
  intros H. unfold periodic_retry. destruct (iteration mod 10 =? 0); [|exact H].
  rewrite retry_buffered_messages_eq. destruct (buffer_of s); [exact H|].
  apply retry_each_world. exact H.
Qed.

Lemma generate_sensor_data_world (sensor_type : string) (s : St) :
  P (world_of s) -> P (world_of (snd (generate_sensor_data sensor_type s))).
Proof.
  intros H. destruct HP as (Hgen & _ & _).
  unfold generate_sensor_data, world_of in *.
  unfold bind, get_self, gets, lift, call_raising, ret. cbn.
  repeat match goal with |- context [if ?b then _ else _] => destruct b end;
    try exact H;
    match goal with |- context [generate_data ?k ?c ?g ?e ?w] =>
      pose proof (Hgen k c g e w H) as H';
      destruct (generate_data k c g e w) as [r w']; exact H'
    end.
Qed.

Lemma generate_gateway_payload_world (s : St) :
  P (world_of s) -> P (world_of (snd (generate_gateway_payload s))).
Proof.
  intros H. unfold generate_gateway_payload. unfold bind at 1.
  pose proof (generate_sensor_data_world "speed" s H) as H1.
  destruct (generate_sensor_data "speed" s) as [[d1|e] s1]; cbn [snd] in *; [|exact H1].
  unfold bind at 1.
  pose proof (generate_sensor_data_world "weather" s1 H1) as H2.
  destruct (generate_sensor_data "weather" s1) as [[d2|e] s2]; cbn [snd] in *; [|exact H2].
  unfold bind at 1.
  pose proof (generate_sensor_data_world "camera" s2 H2) as H3.
  destruct (generate_sensor_data "camera" s2) as [[d3|e] s3]; cbn [snd] in *; [|exact H3].
  exact H3.
Qed.

Lemma generate_and_send_world (iteration : Z) (s : St) :
  P (world_of s) -> P (world_of (snd (generate_and_send iteration s))).
Proof.
  intros H. rewrite generate_and_send_eq.
  pose proof (generate_gateway_payload_world
                (with_events s [Log INFO (MsgIteration iteration)]) H) as Hg.
  destruct (generate_gateway_payload _) as [[p|e] s1]; cbn [snd] in *; [|exact Hg].
  destruct (p_sensors p); cbn [snd]; [exact Hg|].
  apply send_to_kafka_world. exact Hg.
Qed.

Lemma wait_interval_world (s : St) :
  P (world_of s) -> P (world_of (snd (wait_interval s))).
Proof.
  intros H. rewrite wait_interval_eq. destruct HP as (_ & _ & Hwait). apply Hwait, H.
Qed.

(** What holds of the world and is kept by the collaborators holds after a
    pass of the loop. *)
Lemma iteration_step_world (iteration : Z) (s : St) :
  P (world_of s) -> P (world_of (snd (iteration_step iteration s))).
Proof.
  intros H. rewrite iteration_step_eq.
  pose proof (generate_and_send_world iteration s H) as H1.
  destruct (generate_and_send iteration s) as [[u|e] s1]; cbn [snd] in H1;
    apply wait_interval_world.
  - apply periodic_retry_world, H1.
  - exact H1.
Qed.

End WorldInvariant.

Section Shutdown.
Context {E : External}.

(** C5.  The worker looks at the stop event at the top of each pass.  A
    check that sees the event set starts no pass.  When the event is set
    while a pass is in flight, during its generation and publish step or
    by the time its wait returns, and no collaborator clears it, the pass
    is finished and the loop exits at the next check.  In general, when
    the event is first seen set at the check that follows [k] passes, the
    loop exits there, with [k + 1] checks of fuel at most, and the loop
    and [run] return without an exception. *)
Theorem stop_event_ends_loop (fuel : nat) (iteration : Z) (s : St) :
  (stop_is_set (world_of s) = true ->
   run_loop (S fuel) iteration s = (Ok LoopExited, s)) /\
  (kept_by_collaborators (fun w => stop_is_set w = true) ->
   stop_is_set (world_of s) = false ->
   stop_is_set (world_of (snd (generate_and_send (iteration + 1) s))) = true \/
   stop_is_set (world_of (snd (iteration_step (iteration + 1) s))) = true ->
   run_loop (S (S fuel)) iteration s
   = (Ok LoopExited, snd (iteration_step (iteration + 1) s))) /\
  (forall k,
     (forall j, (j < k)%nat ->
        stop_is_set (world_of (after_iterations j iteration s)) = false) ->
     stop_is_set (world_of (after_iterations k iteration s)) = true ->
     (k < fuel)%nat ->
     run_loop fuel iteration s = (Ok LoopExited, after_iterations k iteration s) /\
     (forall created,
        s = with_events created [Log INFO MsgStartingLoop] -> iteration = 0 ->
        run fuel created
        = (Ok LoopExited,
           with_events (after_iterations k 0 s) [Log INFO MsgLoopStopped]))).
Proof.
  split; [|split].
  - intros Hset. rewrite run_loop_S, Hset. reflexivity.
  - intros Hkept Hnot Hflight.
    assert (Hend : stop_is_set (world_of (snd (iteration_step (iteration + 1) s))) = true).
    { destruct Hflight as [Hhalf|Hend]; [|exact Hend].
      rewrite iteration_step_eq.
      destruct (generate_and_send (iteration + 1) s) as [[u|e] s1]; cbn [snd] in Hhalf;
        apply (wait_interval_world _ Hkept).
      - apply (periodic_retry_world _ Hkept), Hhalf.
      - exact Hhalf. }
    rewrite run_loop_S, Hnot, run_loop_S, Hend. reflexivity.
  - intros k Hnot Hset Hfuel.
    pose proof (run_loop_exits k fuel iteration s Hnot Hset Hfuel) as Hrun.
    split; [exact Hrun|].
    intros created -> ->. unfold run. unfold bind at 1.
    change (lift (logger INFO MsgStartingLoop) created)
      with (@Ok unit tt, with_events created [Log INFO MsgStartingLoop]).
    cbv iota beta. unfold bind at 1. rewrite Hrun. reflexivity.
Qed.

End Shutdown.

(** Nothing in the concrete world clears the stop event. *)
Lemma sim_keeps_stop_event :
  @kept_by_collaborators Scenario.sim (fun w => @stop_is_set Scenario.sim w = true).
Proof.
  split; [|split].
  - intros kind sensors gid eid w H. cbn in *. unfold Scenario.sim_generate.
    destruct kind, (Scenario.faults w) as [|[| |] rest]; exact H.
  - intros topic key value w H. cbn in *. unfold Scenario.sim_send.
    destruct (Scenario.outages w) as [|[|] rest]; exact H.
  - intros timeout w H. cbn in *.
    destruct (Scenario.waits_left w); [exact H | discriminate].
Qed.

Lemma stop_event_ends_loop_witness :
  @run Scenario.sim 5 Scenario.stopped_in_second_wait
  = (Ok LoopExited,
     with_events
       (@after_iterations Scenario.sim 2 0
          (with_events Scenario.stopped_in_second_wait [Log INFO MsgStartingLoop]))
       [Log INFO MsgLoopStopped]) /\
  @run_loop Scenario.sim 5 0 Scenario.stopped_in_first_wait
  = (Ok LoopExited, snd (@iteration_step Scenario.sim 1 Scenario.stopped_in_first_wait)).
Proof.
  split.
  - refine (proj2 (proj2 (proj2
      (@stop_event_ends_loop Scenario.sim 5 0
         (with_events Scenario.stopped_in_second_wait [Log INFO MsgStartingLoop]))) 2%nat
         _ _ _) Scenario.stopped_in_second_wait eq_refl eq_refl).
    + intros j Hj. destruct j as [|[|j]]; [reflexivity | reflexivity | lia].
    + reflexivity.
    + lia.
  - apply (proj1 (proj2
      (@stop_event_ends_loop Scenario.sim 3 0 Scenario.stopped_in_first_wait))).
    + exact sim_keeps_stop_event.
    + reflexivity.
    + right. reflexivity.
Defined.

(** In that run two passes were made: the event was set during the second
    wait, and no third pass was started. *)
Example stopped_after_two_passes :
  List.length (wait_timeouts (trace_of (snd (@run Scenario.sim 5 Scenario.stopped_in_second_wait))))
  = 2%nat /\
  fst (@run Scenario.sim 5 Scenario.stopped_in_second_wait) = Ok LoopExited.
Proof. vm_compute. split; reflexivity. Qed.

(** ** Faults inside a pass *)

Section Faults.
Context {E : External}.










End Faults.


(** ** Exceptions outside class [Exception] *)

Section Escapes.
Context {E : External}.

Lemma bindX_embed {S A B : Type} (m : M S A) (k : A -> M S B) (kx : A -> MX S B) (s : S) :
  (forall a s', kx a s' = embed (k a) s') ->
  bindX (embed m) kx s = embed (bind m k) s.
Proof.
  intros H. unfold bindX, embed, bind.
  destruct (m s) as [[a|e] s']; cbn; [rewrite H; reflexivity | reflexivity].
Qed.

Lemma bindX_agree {S A B : Type} (mx : MX S A) (m : M S A) (k : A -> M S B)
    (kx : A -> MX S B) (s : S) :
  mx s = embed m s ->
  (forall a s', kx a s' = embed (k a) s') ->
  bindX mx kx s = embed (bind m k) s.
Proof.
  intros Hm H. unfold bindX. rewrite Hm. unfold embed, bind.
  destruct (m s) as [[a|e] s']; cbn; [rewrite H; reflexivity | reflexivity].
Qed.

Lemma generate_sensor_dataX_agrees (sensor_type : string) (s : St) :
  generate_sensor_dataX of_external sensor_type s = embed (generate_sensor_data sensor_type) s.
Proof.
  unfold generate_sensor_dataX, generate_sensor_data, call_throwing, of_external.
  unfold bindX, embed, bind, get_self, gets, lift, call_raising, retX, ret. cbn.
  repeat match goal with |- context [if ?b then _ else _] => destruct b end;
    try reflexivity;
    match goal with |- context [generate_data ?k ?c ?g ?e ?w] =>
      destruct (generate_data k c g e w) as [[d|err] w']; reflexivity
    end.
Qed.

Lemma generate_gateway_payloadX_agrees (s : St) :
  generate_gateway_payloadX of_external s = embed generate_gateway_payload s.
Proof.
  unfold generate_gateway_payloadX, generate_gateway_payload.
  apply bindX_agree; [apply generate_sensor_dataX_agrees|]. intros d1 s1.
  apply bindX_agree; [apply generate_sensor_dataX_agrees|]. intros d2 s2.
  apply bindX_agree; [apply generate_sensor_dataX_agrees|]. intros d3 s3.
  apply bindX_embed. intros g s4.
  apply bindX_embed. intros now s5. reflexivity.
Qed.

Lemma send_to_kafkaX_agrees (data : payload reading) (s : St) :
  send_to_kafkaX of_external data s = embed (send_to_kafka data) s.
Proof.
  unfold send_to_kafkaX, send_to_kafka, except_Exception, try_except,
    producer_send_and_getX, producer_send_and_get, of_external.
  unfold bindX, embed, bind, get_self, gets, lift, retX, ret, update_buffer, modify,
    logger, emit. cbn.
  destruct (producer_send _ _ data (world (proc s))) as [[u|e] w]; reflexivity.
Qed.

Lemma retry_eachX_agrees (msgs : list (payload reading)) :
  forall s : St, retry_eachX of_external msgs s = embed (retry_each msgs) s.
Proof.
  induction msgs as [|m rest IH]; intros s; [reflexivity|].
  cbn [retry_eachX retry_each].
  apply bindX_agree; [apply send_to_kafkaX_agrees|]. intros sent s1.
  destruct sent; cbn [negb]; [apply IH | reflexivity].
Qed.

Lemma retry_buffered_messagesX_agrees (s : St) :
  retry_buffered_messagesX of_external s = embed retry_buffered_messages s.
Proof.
  unfold retry_buffered_messagesX, retry_buffered_messages.
  apply bindX_embed. intros g s1.
  destruct (Nat.eqb (deque_len (local_buffer g)) 0); [reflexivity|].
  apply bindX_embed. intros u s2.
  apply bindX_embed. intros u' s3. apply retry_eachX_agrees.
Qed.

Lemma bind_assoc {S A B C : Type} (m : M S A) (f : A -> M S B) (g : B -> M S C) (s : S) :
  bind (bind m f) g s = bind m (fun a => bind (f a) g) s.
Proof. unfold bind. destruct (m s) as [[a|e] s']; reflexivity. Qed.

Lemma bindX_assoc {S A B C : Type} (m : MX S A) (f : A -> MX S B) (g : B -> MX S C)
    (s : S) :
  bindX (bindX m f) g s = bindX m (fun a => bindX (f a) g) s.
Proof. unfold bindX. destruct (m s) as [[a|t] s']; reflexivity. Qed.

Lemma embed_ext {S A : Type} (m m' : M S A) (s : S) :
  m s = m' s -> embed m s = embed m' s.
Proof. unfold embed. intros ->. reflexivity. Qed.

Lemma iteration_bodyX_agrees (iteration : Z) (s : St) :
  iteration_bodyX of_external iteration s = embed (iteration_body iteration) s.
Proof.
  assert (Hrest : forall s2 : St,
    bindX (if iteration mod 10 =? 0 then retry_buffered_messagesX of_external else retX tt)
      (fun _ => embed wait_interval) s2
    = embed (bind (periodic_retry iteration) (fun _ => wait_interval)) s2).
  { intros s2. unfold periodic_retry. destruct (iteration mod 10 =? 0).
    - apply bindX_agree; [apply retry_buffered_messagesX_agrees | reflexivity].
    - reflexivity. }
  unfold iteration_bodyX, iteration_body, generate_and_send.
  etransitivity; [| apply embed_ext; symmetry; apply bind_assoc].
  apply bindX_embed. intros u s1.
  etransitivity; [| apply embed_ext; symmetry; apply bind_assoc].
  apply bindX_agree; [apply generate_gateway_payloadX_agrees|]. intros p s2.
  destruct (p_sensors p) as [|x l].
  - apply bindX_embed. intros u2 s3. apply Hrest.
  - rewrite bindX_assoc.
    etransitivity; [| apply embed_ext; symmetry; apply bind_assoc].
    apply bindX_embed. intros u2 s3.
    rewrite bindX_assoc.
    etransitivity; [| apply embed_ext; symmetry; apply bind_assoc].
    apply bindX_agree; [apply send_to_kafkaX_agrees|]. intros sent s4.
    apply Hrest.
Qed.

Lemma except_Exception_agree {S A : Type} (bodyX : MX S A) (body : M S A)
    (handlerX : exn -> MX S A) (handler : exn -> M S A) (s : S) :
  bodyX s = embed body s ->
  (forall e s', handlerX e s' = embed (handler e) s') ->
  except_Exception bodyX handlerX s = embed (try_except body handler) s.
Proof.
  intros Hb H. unfold except_Exception, try_except. rewrite Hb. unfold embed.
  destruct (body s) as [[a|e] s']; cbn [to_outcome]; [reflexivity|].
  rewrite H. reflexivity.
Qed.

Lemma iteration_stepX_agrees (iteration : Z) (s : St) :
  iteration_stepX of_external iteration s = embed (iteration_step iteration) s.
Proof.
  unfold iteration_stepX, iteration_step.
  apply except_Exception_agree; [apply iteration_bodyX_agrees|].
  intros e s1. apply bindX_embed. reflexivity.
Qed.

(** With collaborators that throw nothing outside class [Exception] the
    loop is the one of [run_loop]. *)
Lemma run_loopX_agrees (fuel : nat) :
  forall (iteration : Z) (s : St),
    run_loopX of_external fuel iteration s = embed (run_loop fuel iteration) s.
Proof.
  induction fuel as [|fuel IH]; intros iteration s; [reflexivity|].
  cbn [run_loopX run_loop].
  apply bindX_embed. intros stopped s1.
  destruct stopped; [reflexivity|]. cbv zeta.
  apply bindX_agree; [apply iteration_stepX_agrees|]. intros u s2. apply IH.
Qed.

(** What the speed simulator throws outside class [Exception] passes both
    handlers: the pass ends there, with nothing logged after the line of
    the iteration and no wait. *)
Lemma iteration_stepX_escapes (C : collaborators) (iteration : Z) (s : St)
    (b : base_exception) (w : World) :
  generate_dataX C Speed (dict_get_default (sensors_config (self s)) "speed" [])
    (gateway_id (self s)) (_sensors_edge_id (self s)) (world_of s)
  = (Throws (OutsideException b), w) ->
  iteration_stepX C iteration s
  = (Throws (OutsideException b),
     {| proc := {| world := w;
                   trace := trace_of s ++ [Log INFO (MsgIteration iteration)] |};
        self := self s |}).
Proof.
  intros H. destruct s as [[w0 tr] g]. unfold world_of, trace_of in *. cbn in H |- *.
  unfold iteration_stepX, except_Exception, iteration_bodyX, generate_gateway_payloadX,
    generate_sensor_dataX, call_throwing.
  unfold bindX, embed, bind, get_self, gets, lift, logger, emit, retX, ret. cbn.
  rewrite H. reflexivity.
Qed.

End Escapes.


(** ** The sampling interval *)

Section Interval.
Context {E : External}.


End Interval.


(** ** Payloads without readings *)

Section EmptyPayload.
Context {E : External}.

Lemma generate_sensor_data_no_sensors (sensor_type : string) (s : St) :
  silent_without_sensors -> no_sensors (self s) ->
  match fst (generate_sensor_data sensor_type s) with
  | Ok d => get_readings d = []
  | Raise _ => True
  end.
Proof.
  intros Hsilent (Hs & Hw & Hc). unfold generate_sensor_data.
  unfold bind, get_self, gets, lift, call_raising, ret. cbn.
  repeat match goal with |- context [if ?b then _ else _] => destruct b end;
    [rewrite Hs | rewrite Hw | rewrite Hc | reflexivity];
    match goal with |- context [generate_data ?k [] ?g ?e ?w] =>
      pose proof (Hsilent k g e w) as H;
      destruct (generate_data k [] g e w) as [[d|err] w']; exact H
    end.
Qed.

Lemma extend_with_nothing (d : sensor_data reading) :
  get_readings d = [] -> extend_with [] d = [].
Proof. intros H. unfold extend_with. rewrite H. destruct (sensor_data_truthy d); reflexivity. Qed.

(** A gateway without sensors assembles a payload without readings. *)
Lemma generate_gateway_payload_no_sensors (s : St) :
  silent_without_sensors -> no_sensors (self s) ->
  match fst (generate_gateway_payload s) with
  | Ok p => p_sensors p = []
  | Raise _ => True
  end.
Proof.
  intros Hsilent Hno. unfold generate_gateway_payload. unfold bind at 1.
  pose proof (generate_sensor_data_no_sensors "speed" s Hsilent Hno) as H1.
  destruct (generate_sensor_data_eq "speed" s) as (r1 & w1 & Heq1).
  rewrite Heq1 in *. destruct r1 as [d1|e]; [|exact I]. cbn [fst] in H1.
  unfold bind at 1.
  match goal with |- context [generate_sensor_data "weather" ?s1] =>
    pose proof (generate_sensor_data_no_sensors "weather" s1 Hsilent Hno) as H2;
    destruct (generate_sensor_data_eq "weather" s1) as (r2 & w2 & Heq2) end.
  rewrite Heq2 in *. destruct r2 as [d2|e]; [|exact I]. cbn [fst] in H2.
  unfold bind at 1.
  match goal with |- context [generate_sensor_data "camera" ?s1] =>
    pose proof (generate_sensor_data_no_sensors "camera" s1 Hsilent Hno) as H3;
    destruct (generate_sensor_data_eq "camera" s1) as (r3 & w3 & Heq3) end.
  rewrite Heq3 in *. destruct r3 as [d3|e]; [|exact I]. cbn [fst] in H3.
  unfold bind, get_self, gets, lift, ret. cbn.
  rewrite (extend_with_nothing d1 H1), (extend_with_nothing d2 H2).
  apply extend_with_nothing, H3.
Qed.

(** A pass of a gateway without sensors and with an empty buffer makes no
    producer call and leaves the buffer empty. *)
Lemma iteration_step_no_sensors (iteration : Z) (s : St) :
  silent_without_sensors -> no_sensors (self s) -> buffer_of s = [] ->
  no_sensors (self (snd (iteration_step iteration s))) /\
  buffer_of (snd (iteration_step iteration s)) = [] /\
  publishes (trace_of (snd (iteration_step iteration s))) = publishes (trace_of s).
Proof.
  intros Hsilent Hno Hbuf.
  rewrite iteration_step_eq, generate_and_send_eq.
  pose proof (generate_gateway_payload_no_sensors
                (with_events s [Log INFO (MsgIteration iteration)]) Hsilent Hno) as Hp.
  destruct (generate_gateway_payload_eq (with_events s [Log INFO (MsgIteration iteration)]))
    as (r & w & Heq).
  rewrite Heq in *. destruct r as [p|e]; cbn [fst] in Hp.
  - rewrite Hp.
    assert (Hretry : forall s1 : St, buffer_of s1 = [] -> periodic_retry iteration s1 = (Ok tt, s1)).
    { intros s1 H1. unfold periodic_retry. destruct (iteration mod 10 =? 0); [|reflexivity].
      rewrite retry_buffered_messages_eq, H1. reflexivity. }
    rewrite Hretry by exact Hbuf. rewrite wait_interval_eq. cbn [snd].
    split; [exact Hno|]. split; [exact Hbuf|].
    transitivity (publishes (((trace_of s ++ [Log INFO (MsgIteration iteration)])
                              ++ [Log INFO MsgNoSensors])
                             ++ [EventWait (sampling_interval (self s))]));
      [reflexivity|].
    rewrite !publishes_app. cbn [publishes flat_map app].
    rewrite !app_nil_r. reflexivity.
  - rewrite wait_interval_eq. cbn [snd].
    split; [exact Hno|]. split; [exact Hbuf|].
    transitivity (publishes (((trace_of s ++ [Log INFO (MsgIteration iteration)])
                              ++ [Log ERROR MsgLoopError])
                             ++ [EventWait (sampling_interval (self s))]));
      [reflexivity|].
    rewrite !publishes_app. cbn [publishes flat_map app].
    rewrite !app_nil_r. reflexivity.
Qed.

Lemma after_iterations_no_sensors (k : nat) :
  forall (iteration : Z) (s : St),
    silent_without_sensors -> no_sensors (self s) -> buffer_of s = [] ->
    publishes (trace_of (after_iterations k iteration s)) = publishes (trace_of s).
Proof.
  induction k as [|k IH]; intros iteration s Hsilent Hno Hbuf; [reflexivity|].
  cbn [after_iterations].
  destruct (iteration_step_no_sensors (iteration + 1) s Hsilent Hno Hbuf) as (Hno' & Hbuf' & Hp).
  rewrite IH by assumption. exact Hp.
Qed.

Lemma after_iterations_no_sensors_state (k : nat) :
  forall (iteration : Z) (s : St),
    silent_without_sensors -> no_sensors (self s) -> buffer_of s = [] ->
    no_sensors (self (after_iterations k iteration s)) /\
    buffer_of (after_iterations k iteration s) = [].
Proof.
  induction k as [|k IH]; intros iteration s Hsilent Hno Hbuf; [split; assumption|].
  cbn [after_iterations].
  destruct (iteration_step_no_sensors (iteration + 1) s Hsilent Hno Hbuf) as (Hno' & Hbuf' & _).
  apply IH; assumption.
Qed.

Lemma extend_with_readings (l : list reading) (d : sensor_data reading) :
  get_readings d <> [] -> extend_with l d <> [].
Proof.
  intros H. unfold extend_with.
  destruct d as [|[rs|]]; cbn in *; try congruence.
  destruct l; [exact H | discriminate].
Qed.

Lemma extend_with_more (l : list reading) (d : sensor_data reading) :
  l <> [] -> extend_with l d <> [].
Proof.
  intros H. unfold extend_with. destruct (sensor_data_truthy d); [|exact H].
  destruct l; [congruence | discriminate].
Qed.

(** With simulators that have a reading for every list of sensors that is
    not empty, a gateway with a sensor never assembles a payload without
    readings. *)
Lemma generate_gateway_payload_has_readings (s s1 : St) (p : payload reading) :
  readings_with_sensors -> ~ no_sensors (self s) ->
  generate_gateway_payload s = (Ok p, s1) -> p_sensors p <> [].
Proof.
  intros Hread Hsome. unfold generate_gateway_payload, generate_sensor_data.
  unfold bind, get_self, gets, lift, call_raising, ret. cbn.
  destruct (generate_data Speed _ _ _ _) as [[d1|e1] w1] eqn:G1; cbn; [|discriminate].
  destruct (generate_data Weather _ _ _ _) as [[d2|e2] w2] eqn:G2; cbn; [|discriminate].
  destruct (generate_data Camera _ _ _ _) as [[d3|e3] w3] eqn:G3; cbn; [|discriminate].
  intros [= <- _]. cbn [p_sensors].
  destruct (dict_get_default (sensors_config (self s)) "speed" []) as [|x1 l1] eqn:Hs.
  - destruct (dict_get_default (sensors_config (self s)) "weather" []) as [|x2 l2] eqn:Hw.
    + destruct (dict_get_default (sensors_config (self s)) "camera" []) as [|x3 l3] eqn:Hc.
      * exfalso. apply Hsome. repeat split; assumption.
      * apply extend_with_readings.
        refine (Hread Camera (x3 :: l3) _ _ w2 d3 _ _);
          [discriminate | rewrite G3; reflexivity].
    + apply extend_with_more, extend_with_readings.
      refine (Hread Weather (x2 :: l2) _ _ w1 d2 _ _);
        [discriminate | rewrite G2; reflexivity].
  - apply extend_with_more, extend_with_more, extend_with_readings.
    refine (Hread Speed (x1 :: l1) _ _ (world (proc s)) d1 _ _);
      [discriminate | rewrite G1; reflexivity].
Qed.

Lemma no_sensors_dec (g : EdgeManager) : no_sensors g \/ ~ no_sensors g.
Proof.
  unfold no_sensors.
  destruct (dict_get_default (sensors_config g) "speed" []);
    destruct (dict_get_default (sensors_config g) "weather" []);
    destruct (dict_get_default (sensors_config g) "camera" []);
    try (left; repeat split; reflexivity);
    right; intros (H1 & H2 & H3); discriminate.
Qed.

(** C8.  When the payload assembled in a pass has no readings, the pass
    does not hand it to the producer: generating and skipping returns
    normally, logs the pass and the skip at level INFO and nothing else,
    and leaves the buffer as it was.  With the simulators as documented (no
    reading without sensors, a reading with them), in a worker that
    started with the empty buffer of [__init__] such a pass, whatever its
    number and however many passes came before, makes no producer call at
    all and logs no error: it logs the pass and the skip and then waits.  A
    gateway without sensors never makes a producer call, however long it
    runs. *)
Theorem empty_payload_not_published (start iteration : Z) (k : nat) (s0 s : St) :
  (forall p s1,
     generate_gateway_payload (with_events s [Log INFO (MsgIteration iteration)])
     = (Ok p, s1) ->
     p_sensors p = [] ->
     generate_and_send iteration s = (Ok tt, with_events s1 [Log INFO MsgNoSensors]) /\
     trace_of (with_events s1 [Log INFO MsgNoSensors])
     = trace_of s ++ [Log INFO (MsgIteration iteration); Log INFO MsgNoSensors] /\
     buffer_of (with_events s1 [Log INFO MsgNoSensors]) = buffer_of s) /\
  (simulators_as_documented ->
   buffer_of s0 = [] ->
   s = after_iterations k start s0 ->
   forall p s1,
     generate_gateway_payload (with_events s [Log INFO (MsgIteration iteration)])
     = (Ok p, s1) ->
     p_sensors p = [] ->
     exists w,
       iteration_step iteration s
       = (Ok tt,
          {| proc := {| world := w;
                        trace := trace_of s ++
                          [Log INFO (MsgIteration iteration);
                           Log INFO MsgNoSensors;
                           EventWait (sampling_interval (self s))] |};
             self := self s |})) /\
  (silent_without_sensors -> no_sensors (self s0) -> buffer_of s0 = [] ->
   forall fuel,
     publishes (trace_of (snd (run_loop fuel start s0))) = publishes (trace_of s0)).
Proof.
  assert (Hskip : forall p s1,
     generate_gateway_payload (with_events s [Log INFO (MsgIteration iteration)])
     = (Ok p, s1) ->
     p_sensors p = [] ->
     generate_and_send iteration s = (Ok tt, with_events s1 [Log INFO MsgNoSensors]) /\
     trace_of (with_events s1 [Log INFO MsgNoSensors])
     = trace_of s ++ [Log INFO (MsgIteration iteration); Log INFO MsgNoSensors] /\
     buffer_of (with_events s1 [Log INFO MsgNoSensors]) = buffer_of s /\
     self s1 = self s).
  { intros p s1 Hgen Hempty.
    destruct (generate_gateway_payload_eq (with_events s [Log INFO (MsgIteration iteration)]))
      as (r & w & Heq).
    rewrite Heq in Hgen. injection Hgen as -> <-.
    split; [rewrite generate_and_send_eq, Heq, Hempty; reflexivity|].
    split; [unfold trace_of, with_events; cbn; rewrite <- app_assoc; reflexivity|].
    split; reflexivity. }
  split; [|split].
  - intros p s1 Hgen Hempty.
    destruct (Hskip p s1 Hgen Hempty) as (H1 & H2 & H3 & _). repeat split; assumption.
  - intros [Hsilent Hread] Hbuf0 Hs p s1 Hgen Hempty.
    destruct (after_iterations_summary k start s0) as ([Hself _] & _ & _).
    rewrite <- Hs in Hself.
    assert (Hcfg : sensors_config (self s) = sensors_config (self s0))
      by (rewrite Hself; reflexivity).
    destruct (no_sensors_dec (self s0)) as [Hno|Hsome].
    + destruct (after_iterations_no_sensors_state k start s0 Hsilent Hno Hbuf0)
        as [_ Hbuf].
      rewrite <- Hs in Hbuf.
      destruct (Hskip p s1 Hgen Hempty) as (Hsend & Htr & Hb & Hself1).
      rewrite iteration_step_eq, Hsend.
      assert (Hretry : periodic_retry iteration (with_events s1 [Log INFO MsgNoSensors])
                       = (Ok tt, with_events s1 [Log INFO MsgNoSensors])).
      { unfold periodic_retry. destruct (iteration mod 10 =? 0); [|reflexivity].
        rewrite retry_buffered_messages_eq, Hb, Hbuf. reflexivity. }
      rewrite Hretry, wait_interval_eq. cbn [snd]. eexists. f_equal.
      change (self (with_events s1 [Log INFO MsgNoSensors])) with (self s1).
      rewrite Htr, Hself1, <- app_assoc. reflexivity.
    + exfalso.
      apply (generate_gateway_payload_has_readings _ _ _ Hread) in Hgen; [contradiction|].
      change (self (with_events s [Log INFO (MsgIteration iteration)])) with (self s).
      unfold no_sensors in *. rewrite Hcfg. exact Hsome.
  - intros Hsilent Hno Hbuf fuel.
    destruct (run_loop_passes fuel start s0) as (n & status & _ & ->). cbn [snd].
    apply after_iterations_no_sensors; assumption.
Qed.

End EmptyPayload.

Lemma documented_simulators : @simulators_as_documented Documented.sim.
Proof.
  split.
  - intros kind gid eid w. reflexivity.
  - intros kind sensors gid eid w d Hne. cbn. unfold Documented.one_reading_each. cbn.
    intros [= <-]. destruct sensors; [contradiction Hne; reflexivity | discriminate].
Qed.

(** The tenth pass of a gateway without sensors: the replay is due, the
    buffer is empty, and the pass logs the skip and waits. *)
Lemma empty_payload_not_published_witness :
  (exists w,
     @iteration_step Documented.sim 10 Documented.bare_after_nine
     = (Ok tt,
        {| proc := {| world := w;
                      trace := trace_of Documented.bare_after_nine ++
                        [Log INFO (MsgIteration 10);
                         Log INFO MsgNoSensors;
                         EventWait (sampling_interval (self Documented.bare_after_nine))] |};
           self := self Documented.bare_after_nine |})) /\
  publishes (trace_of (snd (@run_loop Documented.sim 25 0 (Documented.gateway 0 [] 100))))
  = [].
Proof.
  assert (Hfresh : buffer_of (Documented.gateway 0 [] 100) = [])
    by (vm_compute; reflexivity).
  split.
  - assert (Hreach : Documented.bare_after_nine
                     = @after_iterations Documented.sim 9 0 (Documented.gateway 0 [] 100))
      by (vm_compute; reflexivity).
    assert (H : exists p s1,
               @generate_gateway_payload Documented.sim
                 (with_events Documented.bare_after_nine [Log INFO (MsgIteration 10)])
               = (Ok p, s1) /\ p_sensors p = [])
      by (eexists _, _; vm_compute; split; reflexivity).
    destruct H as (p & s1 & Hgen & Hempty).
    exact (proj1 (proj2 (@empty_payload_not_published Documented.sim 0 10 9
                           (Documented.gateway 0 [] 100) Documented.bare_after_nine))
             documented_simulators Hfresh Hreach p s1 Hgen Hempty).
  - assert (Hno : no_sensors (self (Documented.gateway 0 [] 100)))
      by (vm_compute; repeat split).
    rewrite (proj2 (proj2 (@empty_payload_not_published Documented.sim 0 0 0
                             (Documented.gateway 0 [] 100) (Documented.gateway 0 [] 100)))
               (proj1 documented_simulators) Hno Hfresh 25%nat).
    vm_compute. reflexivity.
Defined.

(** * Further properties of the two files *)

(** ** Edge and gateway ids *)

Lemma str_of_N_digits (n : N) :
  str_of_N n = NilEmpty.string_of_uint (N.to_uint n).
Proof.
  unfold str_of_N, NilZero.string_of_uint.
  destruct (N.to_uint n) eqn:H; try reflexivity.
  destruct n as [|p]; [discriminate|]. cbn in H.
  exfalso. revert H. apply DecimalPos.Unsigned.to_uint_nonnil.
Qed.

Lemma uint_of_string_zeros (k : nat) (s : string) :
  NilEmpty.uint_of_string (zeros k ++ s)%string
  = option_map (Nat.iter k Decimal.D0) (NilEmpty.uint_of_string s).
Proof.
  induction k as [|k IH]; cbn [zeros String.append Nat.iter].
  - destruct (NilEmpty.uint_of_string s); reflexivity.
  - cbn [NilEmpty.uint_of_string]. rewrite IH.
    destruct (NilEmpty.uint_of_string s); reflexivity.
Qed.

Lemma of_uint_zeros (k : nat) (d : Decimal.uint) :
  N.of_uint (Nat.iter k Decimal.D0 d) = N.of_uint d.
Proof. induction k as [|k IH]; [reflexivity | exact IH]. Qed.

(** The digits of [format_05d] read back as the index. *)
Lemma parse_format_05d (index : Z) :
  0 <= index -> parse_index (format_05d index) = Some (Z.to_N index).
Proof.
  intros H. unfold format_05d, parse_index.
  destruct (Z.ltb_spec index 0); [lia|]. cbn [String.append].
  rewrite uint_of_string_zeros, str_of_N_digits, NilEmpty.usu. cbn [option_map].
  rewrite of_uint_zeros, DecimalN.Unsigned.of_to. f_equal. lia.
Qed.

Lemma edge_index_of_edge_id (index : Z) :
  0 <= index -> edge_index_of_id (generate_edge_id index) = Some (Z.to_N index).
Proof. intros H. unfold generate_edge_id. cbn. apply parse_format_05d, H. Qed.

(** X1.  Edge ids and gateway ids tell the edges apart: the digits of the
    id of a non-negative index read back as the index, so two
    non-negative indices with the same edge id, or the same gateway id,
    are the same index, whatever the number of digits. *)
Theorem edge_ids_distinct (i j : Z) :
  0 <= i -> 0 <= j ->
  edge_index_of_id (generate_edge_id i) = Some (Z.to_N i) /\
  (generate_edge_id i = generate_edge_id j -> i = j) /\
  (generate_gateway_id (generate_edge_id i) = generate_gateway_id (generate_edge_id j) ->
   i = j).
Proof.
  intros Hi Hj.
  assert (Hinj : generate_edge_id i = generate_edge_id j -> i = j).
  { intros H. pose proof (edge_index_of_edge_id i Hi) as H1.
    rewrite H, (edge_index_of_edge_id j Hj) in H1. injection H1 as H1. lia. }
  split; [apply edge_index_of_edge_id, Hi|]. split; [exact Hinj|].
  intros H. apply Hinj. unfold generate_gateway_id in H. cbn [String.append] in H.
  injection H as H. unfold generate_edge_id. rewrite H. reflexivity.
Qed.

Lemma edge_ids_distinct_witness :
  edge_index_of_id (generate_edge_id 123456) = Some 123456%N /\
  generate_edge_id 42 = "E-00042"%string /\
  generate_gateway_id (generate_edge_id 42) = "GW-E-00042"%string.
Proof.
  split; [|split; reflexivity].
  exact (proj1 (edge_ids_distinct 123456 0 ltac:(lia) ltac:(lia))).
Defined.

(** ** [EdgeManager.__init__] and its configuration *)

Section InitKeys.
Context {E : External}.

(** X2.  [__init__] needs ['edge_id'], ['name'] and ['location'], and
    asks for them in that order: the first one missing is a [KeyError],
    raised before any simulator is made, anything is drawn or logged; a
    missing ['edge_id'] is one even when ['gateway_id'] is there.  With
    the three present it returns a gateway whose id is ['gateway_id'], or
    the edge id when that is missing, whose sensors are those of
    ['sensors'], or none when that is missing, and whose buffer is
    empty. *)
Theorem init_requires_keys (district_id_ : string) (cfg : edge_config)
    (topics : dict string) (p : Proc) :
  (ec_edge_id cfg = None ->
   EdgeManager_init district_id_ cfg topics p = (Raise (KeyError "edge_id"), p)) /\
  (ec_edge_id cfg <> None -> ec_name cfg = None ->
   EdgeManager_init district_id_ cfg topics p = (Raise (KeyError "name"), p)) /\
  (ec_edge_id cfg <> None -> ec_name cfg <> None -> ec_location cfg = None ->
   EdgeManager_init district_id_ cfg topics p = (Raise (KeyError "location"), p)) /\
  (forall edge_id name loc,
     ec_edge_id cfg = Some edge_id -> ec_name cfg = Some name ->
     ec_location cfg = Some loc ->
     exists g p',
       EdgeManager_init district_id_ cfg topics p = (Ok g, p') /\
       gateway_id g = match ec_gateway_id cfg with Some i => i | None => edge_id end /\
       _sensors_edge_id g = edge_id /\
       gateway_name g = name /\
       gateway_location g = loc /\
       district_id g = district_id_ /\
       kafka_topics g = topics /\
       sensors_config g = match ec_sensors cfg with Some s => s | None => [] end /\
       local_buffer g = deque_new 1000).
Proof.
  unfold EdgeManager_init, require, random_uniform.
  unfold bind, ret, raise, logger, emit, modify, call.
  destruct (ec_edge_id cfg) as [edge_id|];
    destruct (ec_name cfg) as [name|];
    destruct (ec_location cfg) as [loc|];
    (split; [|split; [|split]]); try congruence; try reflexivity;
    try (intros ? ? ?; discriminate).
  intros e n l [= <-] [= <-] [= <-]. cbn.
  destruct (random_random _) as [r w]. cbn.
  eexists _, _. split; [reflexivity|]. cbn. repeat split.
Qed.

End InitKeys.

Lemma init_requires_keys_witness :
  @EdgeManager_init Scenario.sim "D1" Unusable.no_edge_id [] (Scenario.start_world [] [] 5)
  = (Raise (KeyError "edge_id"), Scenario.start_world [] [] 5) /\
  exists g p',
    @EdgeManager_init Scenario.sim "D1" Unusable.minimal [] (Scenario.start_world [] [] 5)
    = (Ok g, p') /\
    gateway_id g = "E-00007"%string /\ sensors_config g = [].
Proof.
  split.
  - apply (proj1 (@init_requires_keys Scenario.sim "D1" Unusable.no_edge_id []
                    (Scenario.start_world [] [] 5))).
    reflexivity.
  - destruct (proj2 (proj2 (proj2
        (@init_requires_keys Scenario.sim "D1" Unusable.minimal []
           (Scenario.start_world [] [] 5))))
        "E-00007"%string "Gateway at E-00007"%string
        {| latitude := 4235 # 100; longitude := 1340 # 100 |}
        eq_refl eq_refl eq_refl)
      as (g & p' & Hrun & Hid & _ & _ & _ & _ & _ & Hs & _).
    exists g, p'. split; [exact Hrun|]. split; [exact Hid | exact Hs].
Defined.

(** ** The district of an edge *)

Section DistrictMember.

(** X7.  The lookup returns one of the configured districts, and returns
    one whenever there is any: it gives no district only for an empty
    list. *)
Theorem find_district_member (districts : list district) (edge_index : Z) :
  (forall d, find_district_for_edge districts edge_index = Some d -> In d districts) /\
  (districts <> [] -> exists d, find_district_for_edge districts edge_index = Some d) /\
  (find_district_for_edge districts edge_index = None -> districts = []).
Proof.
  assert (Hscan : forall l d, find_district_scan l edge_index = Some d -> In d l).
  { induction l as [|d0 l IH]; intros d; cbn; [discriminate|].
    destruct (district_contains edge_index d0).
    - intros [= <-]. left. reflexivity.
    - intros H. right. apply IH, H. }
  unfold find_district_for_edge.
  destruct (find_district_scan districts edge_index) as [d|] eqn:Hs.
  - split; [|split].
    + intros d' [= <-]. apply Hscan, Hs.
    + intros _. exists d. reflexivity.
    + discriminate.
  - destruct districts as [|d0 rest].
    + split; [|split]; [discriminate | congruence | reflexivity].
    + split; [|split].
      * intros d [= <-]. left. reflexivity.
      * intros _. exists d0. reflexivity.
      * discriminate.
Qed.

End DistrictMember.

Lemma find_district_member_witness :
  In Scenario.centre [Scenario.suburb; Scenario.centre] /\
  exists d, find_district_for_edge [Scenario.suburb; Scenario.centre] 100 = Some d.
Proof.
  split.
  - apply (proj1 (find_district_member [Scenario.suburb; Scenario.centre] 3)).
    reflexivity.
  - apply (proj1 (proj2 (find_district_member [Scenario.suburb; Scenario.centre] 100))).
    discriminate.
Defined.

(** ** The payload of a gateway *)

Section PayloadComposition.
Context {E : External}.

(** X3.  A payload that [generate_gateway_payload] returns holds the
    readings of the speed simulator, then those of the weather simulator,
    then those of the camera simulator, each asked once, in that order,
    with the gateway's list of sensors of that type, its id and its edge
    id; it carries the id, the district and the location of the gateway,
    the time read after the three calls, and the numbers of sensors
    configured, not of readings returned.  Making it logs nothing, calls
    no producer and leaves the gateway as it is. *)
Theorem payload_composition (s s1 : St) (p : payload reading) :
  generate_gateway_payload s = (Ok p, s1) ->
  exists d1 d2 d3 w1 w2 w3,
    generate_data Speed (dict_get_default (sensors_config (self s)) "speed" [])
      (gateway_id (self s)) (_sensors_edge_id (self s)) (world_of s) = (Ok d1, w1) /\
    generate_data Weather (dict_get_default (sensors_config (self s)) "weather" [])
      (gateway_id (self s)) (_sensors_edge_id (self s)) w1 = (Ok d2, w2) /\
    generate_data Camera (dict_get_default (sensors_config (self s)) "camera" [])
      (gateway_id (self s)) (_sensors_edge_id (self s)) w2 = (Ok d3, w3) /\
    p_sensors p = extend_with [] d1 ++ extend_with [] d2 ++ extend_with [] d3 /\
    p_gateway_id p = gateway_id (self s) /\
    p_district_id p = district_id (self s) /\
    p_location p = gateway_location (self s) /\
    p_last_updated p = (utcnow_isoformat w3 ++ "Z")%string /\
    md_name (p_metadata p) = gateway_name (self s) /\
    md_sensor_counts (p_metadata p)
    = {| count_speed :=
           List.length (dict_get_default (sensors_config (self s)) "speed" []);
         count_weather :=
           List.length (dict_get_default (sensors_config (self s)) "weather" []);
         count_camera :=
           List.length (dict_get_default (sensors_config (self s)) "camera" []) |} /\
    s1 = {| proc := {| world := w3; trace := trace_of s |}; self := self s |}.
Proof.
  destruct s as [[w tr] g]. unfold world_of, trace_of. cbn [proc world trace self].
  unfold generate_gateway_payload, generate_sensor_data.
  unfold bind, ret, gets, lift, get_self, call_raising. cbn.
  destruct (generate_data Speed _ _ _ w) as [[d1|e1] w1] eqn:H1; cbn; [|discriminate].
  destruct (generate_data Weather _ _ _ w1) as [[d2|e2] w2] eqn:H2; cbn; [|discriminate].
  destruct (generate_data Camera _ _ _ w2) as [[d3|e3] w3] eqn:H3; cbn; [|discriminate].
  intros [= <- <-]. exists d1, d2, d3, w1, w2, w3. cbn.
  split; [reflexivity|]. split; [exact H2|]. split; [exact H3|].
  split.
  - unfold extend_with. cbn [app].
    destruct (sensor_data_truthy d1), (sensor_data_truthy d2), (sensor_data_truthy d3);
      cbn [app]; rewrite ?app_nil_r, ?app_assoc; reflexivity.
  - split; [reflexivity|]. split; [reflexivity|].
    split; [destruct (gateway_location g); reflexivity|].
    repeat split.
Qed.

End PayloadComposition.

Lemma payload_composition_witness :
  exists p s1,
    @generate_gateway_payload Scenario.sim (Scenario.gateway 2 [] [] 100) = (Ok p, s1) /\
    List.length (p_sensors p) = 2%nat /\
    p_gateway_id p = "GW-E-00000"%string /\
    trace_of s1 = [].
Proof.
  destruct (@generate_gateway_payload Scenario.sim (Scenario.gateway 2 [] [] 100))
    as [[p|e] s1] eqn:Hgen; [|vm_compute in Hgen; discriminate].
  destruct (@payload_composition Scenario.sim _ _ _ Hgen)
    as (d1 & d2 & d3 & w1 & w2 & w3 & H1 & H2 & H3 & Hs & Hid & _ & _ & _ & _ & _ & Hst).
  exists p, s1. split; [reflexivity|].
  vm_compute in Hgen. injection Hgen as <- <-.
  repeat split.
Defined.
